(** * BIP32 extended keys: a shallow embedding of [bip32.py] and
    [bip32_helper.py], and the properties of the key-tree node [Xkey],
    its derivation functions and its wire codec.

    Python values are modelled as follows: [bytes] objects are lists of
    [Byte.byte]; [str] objects are lists of [ascii]; [int] is [Z]
    (unbounded); a raised exception is the [Err] case of [result].

    The file has the embedding first (the Python runtime, the two
    modules, executable digests and curve, the keys of the test suite),
    then the properties: lemmas on bytes and Base58, the theorems C1 to
    C10, the test suite replayed on the embedding, and each theorem at a
    concrete input; then the further properties X1 to X28 of the two
    modules, and these at concrete inputs. Bignums serves the curve
    arithmetic only, DecimalString the [str] of an [int]. *)

From Stdlib Require Import Ascii String.
From Stdlib Require Import ZArith List Bool Lia.
From Stdlib Require Import Init.Byte Strings.Byte.
From Stdlib Require DecimalString DecimalZ DecimalPos.
From Bignums Require Import BigZ.
Import ListNotations.
Local Open Scope Z_scope.

(** ** Python runtime: exceptions, integers and byte strings *)

Module Py.

Inductive error : Type :=
| AssertionError
| ValueError (msg : string)
| OverflowError
| TypeError
| IndexError
| EccError.

Inductive result (A : Type) : Type :=
| OK (a : A)
| Err (e : error).
Arguments OK {A} a.
Arguments Err {A} e.

Definition bind {A B} (r : result A) (k : A -> result B) : result B :=
  match r with
  | OK a => k a
  | Err e => Err e
  end.

Definition is_err {A} (r : result A) : bool :=
  match r with OK _ => false | Err _ => true end.

Abbreviation bytes := (list byte) (only parsing).
Abbreviation str := (list ascii) (only parsing).

Definition byte_to_Z (b : byte) : Z := Z.of_N (Byte.to_N b).

Definition byte_of_Z (z : Z) : byte :=
  match Byte.of_N (Z.to_N z) with
  | Some b => b
  | None => x00
  end.

Fixpoint bytes_eqb (a b : bytes) : bool :=
  match a, b with
  | [], [] => true
  | x :: a', y :: b' => Byte.eqb x y && bytes_eqb a' b'
  | _, _ => false
  end.

(** [int.from_bytes(bs, "big")]. *)
Definition int_from_bytes (bs : bytes) : Z :=
  fold_left (fun acc b => acc * 256 + byte_to_Z b) bs 0.

(** The [len] low base-256 digits of [n], most significant first. *)
Fixpoint be_digits (len : nat) (n : Z) : bytes :=
  match len with
  | O => []
  | S l => be_digits l (n / 256) ++ [byte_of_Z (n mod 256)]
  end.

(** [n.to_bytes(len, "big")]: raises [OverflowError] on a negative [n]
    and on an [n] that does not fit in [len] bytes. *)
Definition int_to_bytes (n : Z) (len : nat) : result bytes :=
  if n <? 0 then Err OverflowError
  else if 256 ^ Z.of_nat len <=? n then Err OverflowError
  else OK (be_digits len n).

(** [bytes([d])]: raises [ValueError] unless [0 <= d < 256]. *)
Definition bytes_of_int (d : Z) : result bytes :=
  if (0 <=? d) && (d <? 256) then OK [byte_of_Z d]
  else Err (ValueError "bytes must be in range(0, 256)").

(** [b[0]] on a bytes object: the first byte as an int. *)
Definition getitem0 (b : bytes) : result Z :=
  match b with
  | [] => Err IndexError
  | x :: _ => OK (byte_to_Z x)
  end.

(** The slices [b[-n:]] and [b[:-n]] for [n > 0]. *)
Definition slice_last (n : nat) (b : bytes) : bytes :=
  skipn (length b - n) b.
Definition slice_drop_last (n : nat) (b : bytes) : bytes :=
  firstn (length b - n) b.

(** [s.index(c)] for a one-character [c]. *)
Fixpoint str_index (c : ascii) (s : str) : option nat :=
  match s with
  | [] => None
  | x :: s' =>
      if Ascii.eqb x c then Some O
      else match str_index c s' with
           | Some i => Some (S i)
           | None => None
           end
  end.

End Py.
Import Py.

Declare Scope result_scope.
Notation "x <- e ;; k" := (bind e (fun x => k))
  (at level 61, e at next level, right associativity) : result_scope.
Notation "' p <- e ;; k" := (bind e (fun x => match x with p => k end))
  (at level 61, p pattern, e at next level, right associativity)
  : result_scope.
Local Open Scope result_scope.

(** ** External collaborators

    [hashlib]/[hmac] (Python's standard library) and the [ecc] module are
    not part of the sources. The embedding and the theorems are parametric
    in them; executable instances follow, to run the code on the keys of
    the test suite. *)

(** The three digests the code asks [hashlib] and [hmac] for, on bytes
    objects: [hashlib.sha256(d).digest()],
    [hashlib.new('ripemd160', d).digest()] and
    [hmac.new(key, msg, sha512).digest()]. *)
Class Hashlib : Type := {
  sha256_digest : bytes -> bytes;
  ripemd160_digest : bytes -> bytes;
  hmac_sha512 : bytes -> bytes -> bytes
}.

(** Modelled from the spec: the [ecc] module ([S256Point], [N], [G],
    [PrivateKey]) is imported by the sources but absent from them. The spec
    lists what it supplies: scalar multiplication against the base point,
    point addition, SEC parsing and serialisation in compressed form, and
    the group order constant. [PrivateKey(secret).point] is [secret * G].
    The sources call [point.sec(compressed=True)] and [point.sec()]; both
    are the compressed form (the test suite expects 33 bytes from each),
    hence the one field [sec]. Serialising and parsing may raise (for
    instance at the point at infinity, or on malformed bytes), which is
    the [None] case. *)
Class Ecc : Type := {
  S256Point : Type;
  G : S256Point;
  N_order : Z;                                  (* ecc.N *)
  rmul : Z -> S256Point -> S256Point;           (* coefficient * point *)
  point_add : S256Point -> S256Point -> S256Point;  (* point + point *)
  sec : S256Point -> option bytes;              (* point.sec() *)
  S256Point_parse : bytes -> option S256Point   (* S256Point.parse(b) *)
}.

(** An exception raised inside [ecc] surfaces as [EccError]. *)
Definition ecc_call {A} (o : option A) : result A :=
  match o with
  | Some a => OK a
  | None => Err EccError
  end.

(** ** [bip32_helper.py] *)

Section Helper.
Context {H : Hashlib} {E : Ecc}.

Definition BASE58_ALPHABET : str :=
  list_ascii_of_string
    "123456789ABCDEFGHJKLMNPQRSTUVWXYZabcdefghijkmnopqrstuvwxyz".

(** [PrivateKey(secret).point] is [secret * G]. *)
Definition get_pubkey_sec (private_key_bytes : bytes) : result bytes :=
  let secret := int_from_bytes private_key_bytes in
  let public_key := rmul secret G in
  ecc_call (sec public_key).

(** [BASE58_ALPHABET.index(char)]: [ValueError] when absent. *)
Definition alphabet_index (char : ascii) : result Z :=
  match str_index char BASE58_ALPHABET with
  | Some i => OK (Z.of_nat i)
  | None => Err (ValueError "substring not found")
  end.

(** The [for char in base58_string] loop, [num] being the accumulator. *)
Fixpoint decode_loop (num : Z) (base58_string : str) : result Z :=
  match base58_string with
  | [] => OK num
  | char :: rest =>
      i <- alphabet_index char ;;
      decode_loop (num * 58 + i) rest
  end.

Definition decode_base58 (base58_string : str) : result bytes :=
  num <- decode_loop 0 base58_string ;;
  int_to_bytes num 82.

(** The first loop of [encode_base58]: count the leading zero bytes. *)
Fixpoint count_leading_zeros (data : bytes) : nat :=
  match data with
  | [] => O
  | b :: rest =>
      if byte_to_Z b =? 0 then S (count_leading_zeros rest) else O
  end.

(** [BASE58_ALPHABET[mod]]. *)
Definition alphabet_at (m : Z) : ascii :=
  nth (Z.to_nat m) BASE58_ALPHABET "000"%char.

(** The [while num > 0] loop of [encode_base58], bounded by [fuel]
    iterations. *)
Fixpoint encode_loop (fuel : nat) (num : Z) (result : str) : str :=
  match fuel with
  | O => result
  | S fuel' =>
      if 0 <? num then
        let (num', mod_) := (num / 58, num mod 58) in
        encode_loop fuel' num' (alphabet_at mod_ :: result)
      else result
  end.

(** A number of iterations after which the loop has stopped: each one
    divides [num] by 58, so its binary length is more than enough. *)
Definition encode_fuel (num : Z) : nat := S (Z.to_nat (Z.log2 num)).

Definition encode_base58 (data : bytes) : str :=
  let count := count_leading_zeros data in
  let num := int_from_bytes data in
  let prefix := repeat "1"%char count in
  let result := encode_loop (encode_fuel num) num [] in
  prefix ++ result.

Definition sha256 (data : bytes) : bytes := sha256_digest data.

Definition hash256 (data : bytes) : bytes :=
  sha256_digest (sha256_digest data).

Definition encode_base58_checksum (data : bytes) : str :=
  encode_base58 (data ++ firstn 4 (hash256 data)).

(** [hash160(data)]; [hashlib.sha256(None)] raises [TypeError]. *)
Definition hash160 (data : option bytes) : result bytes :=
  match data with
  | Some d => OK (ripemd160_digest (sha256_digest d))
  | None => Err TypeError
  end.

End Helper.

(** ** [bip32.py]: the class [Xkey] *)

Record Xkey : Type := mkXkey {
  key : bytes;
  chaincode : bytes;
  root : bool;
  private_key : bool;
  depth : Z;
  index : Z;
  parent_pubkey : option bytes
}.

Definition option_bytes_eqb (a b : option bytes) : bool :=
  match a, b with
  | None, None => true
  | Some x, Some y => bytes_eqb x y
  | _, _ => false
  end.

(** [Xkey.__eq__]. *)
Definition Xkey_eq (self other : Xkey) : bool :=
  bytes_eqb (key self) (key other) &&
  bytes_eqb (chaincode self) (chaincode other) &&
  Bool.eqb (root self) (root other) &&
  Bool.eqb (private_key self) (private_key other) &&
  (depth self =? depth other) &&
  (index self =? index other) &&
  option_bytes_eqb (parent_pubkey self) (parent_pubkey other).

(** [Xkey.__init__]: the two [assert]s guard the non-root case only. *)
Definition Xkey_init (key chaincode : bytes) (private_key root : bool)
    (depth index : Z) (parent_pubkey : option bytes) : result Xkey :=
  if negb root then
    if depth =? 0 then Err AssertionError
    else match parent_pubkey with
         | None => Err AssertionError
         | Some _ =>
             OK (mkXkey key chaincode root private_key depth index
                        parent_pubkey)
         end
  else OK (mkXkey key chaincode root private_key depth index parent_pubkey).

Definition XPRV_VERSION : bytes := [x04; x88; xad; xe4].
Definition XPUB_VERSION : bytes := [x04; x88; xb2; x1e].

(** A [BytesIO] stream is its unread content; [stream.read(n)] returns at
    most [n] bytes and advances. *)
Abbreviation stream := (list byte) (only parsing).
Definition read (n : nat) (s : stream) : bytes * stream :=
  (firstn n s, skipn n s).

Section Bip32.
Context {H : Hashlib} {E : Ecc}.

Definition parse_from_seed (seed : bytes) : result Xkey :=
  let full_node := hmac_sha512 (list_byte_of_string "Bitcoin seed") seed in
  let left_node := firstn 32 full_node in
  let right_node := skipn 32 full_node in
  Xkey_init left_node right_node true true 0 0 None.

Definition parse_from_bip32 (bip32key : str) (parent_pubkey : option bytes)
  : result Xkey :=
  decoded <- decode_base58 bip32key ;;
  let checksum := slice_last 4 decoded in
  if negb (bytes_eqb checksum (firstn 4 (hash256 (slice_drop_last 4 decoded))))
  then Err (ValueError "Checksum mismatch!")
  else
    let stream0 : stream := slice_drop_last 4 decoded in
    let (version, stream1) := read 4 stream0 in
    private_key <-
      (if bytes_eqb version XPRV_VERSION then OK true
       else if bytes_eqb version XPUB_VERSION then OK false
       else Err (ValueError "Unsupported BIP32 Key Format")) ;;
    let (depth_byte, stream2) := read 1 stream1 in
    depth <- getitem0 depth_byte ;;
    let (fingerprint, stream3) := read 4 stream2 in
    let (index_bytes, stream4) := read 4 stream3 in
    let index := int_from_bytes index_bytes in
    root <-
      (if (depth =? 0) && bytes_eqb fingerprint (repeat x00 4) && (index =? 0)
       then OK true
       else
         h <- hash160 parent_pubkey ;;
         if negb (bytes_eqb (firstn 4 h) fingerprint)
         then Err (ValueError "Fingerprint mismatch!")
         else OK false) ;;
    let (chaincode, stream5) := read 32 stream4 in
    let (key, stream6) := read 33 stream5 in
    key0 <- getitem0 key ;;
    let key := if key0 =? 0 then skipn 1 key else key in
    Xkey_init key chaincode private_key root depth index parent_pubkey.

Definition derive_child_seed (self : Xkey) (index_num : Z) : result Xkey :=
  '(pubkey, data) <-
    (if private_key self then
       pubkey <- get_pubkey_sec (key self) ;;
       if 2 ^ 31 <=? index_num then
         ib <- int_to_bytes index_num 4 ;;
         OK (pubkey, [x00] ++ key self ++ ib)
       else
         ib <- int_to_bytes index_num 4 ;;
         OK (pubkey, pubkey ++ ib)
     else
       let pubkey := key self in
       if 2 ^ 31 <=? index_num then
         Err (ValueError "Cannot use hardened index!")
       else
         ib <- int_to_bytes index_num 4 ;;
         OK (pubkey, pubkey ++ ib)) ;;
  let full_node := hmac_sha512 (chaincode self) data in
  let left_node := firstn 32 full_node in
  let right_node := skipn 32 full_node in
  let left_node_num := int_from_bytes left_node in
  let key_num := int_from_bytes (key self) in
  key <-
    (if private_key self then
       let total := key_num + left_node_num in
       let total := total mod N_order in
       int_to_bytes total 32
     else
       key_point <- ecc_call (S256Point_parse (key self)) ;;
       let left_point := rmul left_node_num G in
       let total := point_add key_point left_point in
       ecc_call (sec total)) ;;
  let depth := if root self then 1 else depth self + 1 in
  Xkey_init key right_node (private_key self) false depth index_num
            (Some pubkey).

(** The body of the [for item in path] loop. *)
Definition derive_path_step (seed : Xkey) (item : Z * bool) : result Xkey :=
  let (index, hardened) := item in
  let index := if hardened then index + 2 ^ 31 else index in
  derive_child_seed seed index.

(** The loop carries [seed]; an exception in an iteration ends it. *)
Definition derive_path (self : Xkey) (path : list (Z * bool)) : result Xkey :=
  fold_left (fun seed item => s <- seed ;; derive_path_step s item)
            path (OK self).

Definition derive_pubkey (self : Xkey) : result Xkey :=
  if negb (private_key self) then Err AssertionError
  else
    k <- get_pubkey_sec (key self) ;;
    Xkey_init k (chaincode self) false (root self) (depth self) (index self)
              (parent_pubkey self).

Definition serialize (self : Xkey) : result str :=
  let result : bytes := [] in
  let result :=
    if private_key self then result ++ XPRV_VERSION
    else result ++ XPUB_VERSION in
  result <-
    (if root self then
       let result := result ++ [x00] in
       let result := result ++ repeat x00 4 in
       let result := result ++ repeat x00 4 in
       OK result
     else
       d <- bytes_of_int (depth self) ;;
       let result := result ++ d in
       h <- hash160 (parent_pubkey self) ;;
       let result := result ++ firstn 4 h in
       ib <- int_to_bytes (index self) 4 ;;
       let result := result ++ ib in
       OK result) ;;
  let result := result ++ chaincode self in
  let result :=
    if private_key self then result ++ ([x00] ++ key self)
    else result ++ key self in
  OK (encode_base58_checksum result).

End Bip32.

(** ** Assumptions on the collaborators

    Each theorem names the facts about [hashlib] and [ecc] it relies on. *)

Definition sha256_length (H : Hashlib) : Prop :=
  forall d, length (sha256_digest d) = 32%nat.

Definition ripemd160_length (H : Hashlib) : Prop :=
  forall d, length (ripemd160_digest d) = 20%nat.

Definition hmac_sha512_length (H : Hashlib) : Prop :=
  forall k m, length (hmac_sha512 k m) = 64%nat.

(** The group order is positive and a scalar below it fits in 32 bytes. *)
Definition order_fits (E : Ecc) : Prop := 0 < N_order <= 2 ^ 256.

(** Multiples of [G] add up, the coefficients being taken modulo [N]. *)
Definition rmul_G_additive (E : Ecc) : Prop :=
  forall a b : Z,
    rmul ((a + b) mod N_order) G = point_add (rmul a G) (rmul b G).

(** Parsing the SEC form of a multiple of [G] gives the point back. *)
Definition parse_sec_inverse (E : Ecc) : Prop :=
  forall (k : Z) (b : bytes),
    sec (rmul k G) = Some b -> S256Point_parse b = Some (rmul k G).

(** ** Valid nodes (the data model's invariants) *)

Definition is_some {A} (o : option A) : bool :=
  match o with Some _ => true | None => false end.

(** What [__init__] asserts, and a depth that is not negative. *)
Definition well_formed (x : Xkey) : bool :=
  (0 <=? depth x) &&
  (root x || (negb (depth x =? 0) && is_some (parent_pubkey x))).

(** A SEC-compressed point: 33 bytes, the first being 0x02 or 0x03. *)
Definition sec_compressed (k : bytes) : bool :=
  (length k =? 33)%nat &&
  match k with
  | b :: _ => Byte.eqb b x02 || Byte.eqb b x03
  | [] => false
  end.

Definition valid_node (x : Xkey) : bool :=
  well_formed x &&
  (if private_key x then (length (key x) =? 32)%nat
   else sec_compressed (key x)) &&
  (length (chaincode x) =? 32)%nat &&
  (depth x <? 256) &&
  (0 <=? index x) && (index x <? 2 ^ 32) &&
  (if root x
   then (depth x =? 0) && (index x =? 0) && negb (is_some (parent_pubkey x))
   else true).

(** The 33-byte key field [serialize] writes last. *)
Definition key_field (x : Xkey) : bytes :=
  if private_key x then [x00] ++ key x else key x.

(** ** The wire layout, as [parse_from_bip32] reads it

    [decoded] is the 82-byte result of [decode_base58]; the fields are
    named by their offsets in the 78-byte payload. *)

Definition wire_payload (decoded : bytes) : bytes := slice_drop_last 4 decoded.
Definition wire_checksum (decoded : bytes) : bytes := slice_last 4 decoded.
Definition wire_version (payload : bytes) : bytes := firstn 4 payload.
Definition wire_depth (payload : bytes) : result Z :=
  getitem0 (firstn 1 (skipn 4 payload)).
Definition wire_fingerprint (payload : bytes) : bytes :=
  firstn 4 (skipn 5 payload).
Definition wire_index (payload : bytes) : Z :=
  int_from_bytes (firstn 4 (skipn 9 payload)).
Definition wire_chaincode (payload : bytes) : bytes :=
  firstn 32 (skipn 13 payload).
Definition wire_key (payload : bytes) : bytes := firstn 33 (skipn 45 payload).

(** The payload is marked as a root: depth 0, fingerprint 0, index 0. *)
Definition root_marked (payload : bytes) : bool :=
  match wire_depth payload with
  | OK depth =>
      (depth =? 0) && bytes_eqb (wire_fingerprint payload) (repeat x00 4)
      && (wire_index payload =? 0)
  | Err _ => false
  end.

Definition known_version (payload : bytes) : option bool :=
  if bytes_eqb (wire_version payload) XPRV_VERSION then Some true
  else if bytes_eqb (wire_version payload) XPUB_VERSION then Some false
  else None.

(** The key field once a leading zero byte (the private-key marker) is
    stripped. *)
Definition stripped_key (payload : bytes) : bytes :=
  match wire_key payload with
  | b :: rest => if byte_to_Z b =? 0 then rest else b :: rest
  | [] => []
  end.

Definition checksum_ok {H : Hashlib} (decoded : bytes) : bool :=
  bytes_eqb (wire_checksum decoded)
            (firstn 4 (hash256 (wire_payload decoded))).

(** ** Path derivation as the specification words it

    A fold of [derive_child] over the steps, left to right, a hardened
    step having [2^31] added to its index. *)

Definition encode_step (step : Z * bool) : Z :=
  if snd step then fst step + 2 ^ 31 else fst step.

Section PathSpec.
Context {H : Hashlib} {E : Ecc}.

Fixpoint derive_path_spec (node : Xkey) (steps : list (Z * bool))
  : result Xkey :=
  match steps with
  | [] => OK node
  | step :: rest =>
      child <- derive_child_seed node (encode_step step) ;;
      derive_path_spec child rest
  end.

End PathSpec.

(** ** Executable digests

    SHA-256 and SHA-512 (FIPS 180-4), RIPEMD-160 and HMAC (RFC 2104), so
    that the code can be run on the keys of the repository's test suite.
    Words are integers below [2^32] or [2^64]. *)

Module SHA2.

(** The first 80 primes: the round constants and the initial state are
    the leading fractional bits of their cube roots and of the square
    roots of the first 8. *)
Definition primes : list Z :=
  [2; 3; 5; 7; 11; 13; 17; 19; 23; 29; 31; 37; 41; 43; 47; 53; 59; 61; 67;
   71; 73; 79; 83; 89; 97; 101; 103; 107; 109; 113; 127; 131; 137; 139; 149;
   151; 157; 163; 167; 173; 179; 181; 191; 193; 197; 199; 211; 223; 227; 229;
   233; 239; 241; 251; 257; 263; 269; 271; 277; 281; 283; 293; 307; 311; 313;
   317; 331; 337; 347; 349; 353; 359; 367; 373; 379; 383; 389; 397; 401; 409].

Fixpoint cube_root_bits (bits : nat) (n r : Z) : Z :=
  match bits with
  | O => r
  | S b =>
      let c := r + 2 ^ Z.of_nat b in
      if c * c * c <=? n then cube_root_bits b n c else cube_root_bits b n r
  end.

Definition cube_root_fraction (w p : Z) : Z :=
  cube_root_bits (Z.to_nat w + 8) (p * 2 ^ (3 * w)) 0 mod 2 ^ w.

Definition square_root_fraction (w p : Z) : Z :=
  Z.sqrt (p * 2 ^ (2 * w)) mod 2 ^ w.

(** A member of the family: word size in bits, the rotation and shift
    amounts of the four sigma functions, round constants, initial state. *)
Record variant : Type := {
  wbits : Z;
  Sigma0_by : Z * Z * Z;
  Sigma1_by : Z * Z * Z;
  sigma0_by : Z * Z * Z;
  sigma1_by : Z * Z * Z;
  round_constants : list Z;
  initial_state : list Z
}.

Section Family.
Variable v : variant.

Definition word (z : Z) : Z := Z.land z (Z.ones (wbits v)).
Definition rotr (n x : Z) : Z :=
  Z.lor (Z.shiftr x n) (word (Z.shiftl x (wbits v - n))).
Definition xor3 (a b c : Z) : Z := Z.lxor (Z.lxor a b) c.
Definition Ch (x y z : Z) : Z :=
  Z.lxor (Z.land x y) (Z.land (Z.lxor x (Z.ones (wbits v))) z).
Definition Maj (x y z : Z) : Z :=
  xor3 (Z.land x y) (Z.land x z) (Z.land y z).
Definition Sigma (by_ : Z * Z * Z) (x : Z) : Z :=
  let '(a, b, c) := by_ in xor3 (rotr a x) (rotr b x) (rotr c x).
Definition sigma (by_ : Z * Z * Z) (x : Z) : Z :=
  let '(a, b, c) := by_ in xor3 (rotr a x) (rotr b x) (Z.shiftr x c).

Definition word_bytes : nat := Z.to_nat (wbits v / 8).
Definition block_bytes : nat := 16 * word_bytes.

(** Padding: a 1 bit, zero bits, and the bit length on two words. *)
Definition pad (msg : bytes) : bytes :=
  let len := Z.of_nat (length msg) in
  let room := Z.of_nat block_bytes - 2 * Z.of_nat word_bytes - 1 in
  msg ++ [x80]
      ++ repeat x00 (Z.to_nat ((room - len) mod Z.of_nat block_bytes))
      ++ be_digits (2 * word_bytes) (8 * len).

Fixpoint chunks (size count : nat) (l : bytes) : list bytes :=
  match count with
  | O => []
  | S c => firstn size l :: chunks size c (skipn size l)
  end.

(** The message schedule, most recent word first. *)
Fixpoint schedule (n : nat) (w : list Z) : list Z :=
  match n with
  | O => w
  | S n' =>
      let next :=
        word (sigma (sigma1_by v) (nth 1 w 0) + nth 6 w 0
              + sigma (sigma0_by v) (nth 14 w 0) + nth 15 w 0) in
      schedule n' (next :: w)
  end.

Definition round (s : list Z) (kw : Z * Z) : list Z :=
  match s with
  | [a; b; c; d; e; f; g; h] =>
      let t1 := h + Sigma (Sigma1_by v) e + Ch e f g + fst kw + snd kw in
      let t2 := Sigma (Sigma0_by v) a + Maj a b c in
      [word (t1 + t2); a; b; c; word (d + t1); e; f; g]
  | _ => s
  end.

Definition compress (state : list Z) (block : bytes) : list Z :=
  let w16 := map int_from_bytes (chunks word_bytes 16 block) in
  let w := rev (schedule (length (round_constants v) - 16) (rev w16)) in
  let s := fold_left round (combine (round_constants v) w) state in
  map (fun p => word (fst p + snd p)) (combine state s).

Definition digest (msg : bytes) : bytes :=
  let padded := pad msg in
  let blocks := chunks block_bytes (length padded / block_bytes) padded in
  let final := fold_left compress blocks (initial_state v) in
  flat_map (be_digits word_bytes) final.

End Family.

Definition sha256_constants : list Z :=
  Eval vm_compute in map (cube_root_fraction 32) (firstn 64 primes).
Definition sha256_initial : list Z :=
  Eval vm_compute in map (square_root_fraction 32) (firstn 8 primes).
Definition sha512_constants : list Z :=
  Eval vm_compute in map (cube_root_fraction 64) primes.
Definition sha512_initial : list Z :=
  Eval vm_compute in map (square_root_fraction 64) (firstn 8 primes).

Definition sha256 : variant := {|
  wbits := 32;
  Sigma0_by := (2, 13, 22);
  Sigma1_by := (6, 11, 25);
  sigma0_by := (7, 18, 3);
  sigma1_by := (17, 19, 10);
  round_constants := sha256_constants;
  initial_state := sha256_initial
|}.

Definition sha512 : variant := {|
  wbits := 64;
  Sigma0_by := (28, 34, 39);
  Sigma1_by := (14, 18, 41);
  sigma0_by := (1, 8, 7);
  sigma1_by := (19, 61, 6);
  round_constants := sha512_constants;
  initial_state := sha512_initial
|}.

End SHA2.

(** HMAC (RFC 2104) over a digest with the given block size. *)
Definition hmac_digest (hash : bytes -> bytes) (block : nat)
    (key msg : bytes) : bytes :=
  let key := if (block <? length key)%nat then hash key else key in
  let key := key ++ repeat x00 (block - length key) in
  let mask c := map (fun b => byte_of_Z (Z.lxor (byte_to_Z b) c)) key in
  hash (mask 0x5c ++ hash (mask 0x36 ++ msg)).

Module RIPEMD160.

Definition word (z : Z) : Z := Z.land z (Z.ones 32).
Definition rol (n x : Z) : Z :=
  word (Z.lor (Z.shiftl x n) (Z.shiftr x (32 - n))).
Definition not32 (x : Z) : Z := Z.lxor x (Z.ones 32).

(** The five boolean functions, by round. *)
Definition f (round : nat) (x y z : Z) : Z :=
  match round with
  | 0%nat => Z.lxor (Z.lxor x y) z
  | 1%nat => Z.lor (Z.land x y) (Z.land (not32 x) z)
  | 2%nat => Z.lxor (Z.lor x (not32 y)) z
  | 3%nat => Z.lor (Z.land x z) (Z.land y (not32 z))
  | _ => Z.lxor x (Z.lor y (not32 z))
  end.

(** Per step of the left and of the right line: the message word used
    and the rotation amount. *)
Definition word_left : list nat :=
  seq 0 16 ++
  [7; 4; 13; 1; 10; 6; 15; 3; 12; 0; 9; 5; 2; 14; 11; 8;
   3; 10; 14; 4; 9; 15; 8; 1; 2; 7; 0; 6; 13; 11; 5; 12;
   1; 9; 11; 10; 0; 8; 12; 4; 13; 3; 7; 15; 14; 5; 6; 2;
   4; 0; 5; 9; 7; 12; 2; 10; 14; 1; 3; 8; 11; 6; 15; 13]%nat.
Definition word_right : list nat :=
  [5; 14; 7; 0; 9; 2; 11; 4; 13; 6; 15; 8; 1; 10; 3; 12;
   6; 11; 3; 7; 0; 13; 5; 10; 14; 15; 8; 12; 4; 9; 1; 2;
   15; 5; 1; 3; 7; 14; 6; 9; 11; 8; 12; 2; 10; 0; 4; 13;
   8; 6; 4; 1; 3; 11; 15; 0; 5; 12; 2; 13; 9; 7; 10; 14;
   12; 15; 10; 4; 1; 5; 8; 7; 6; 2; 13; 14; 0; 3; 9; 11]%nat.
Definition shift_left : list Z :=
  [11; 14; 15; 12; 5; 8; 7; 9; 11; 13; 14; 15; 6; 7; 9; 8;
   7; 6; 8; 13; 11; 9; 7; 15; 7; 12; 15; 9; 11; 7; 13; 12;
   11; 13; 6; 7; 14; 9; 13; 15; 14; 8; 13; 6; 5; 12; 7; 5;
   11; 12; 14; 15; 14; 15; 9; 8; 9; 14; 5; 6; 8; 6; 5; 12;
   9; 15; 5; 11; 6; 8; 13; 12; 5; 12; 13; 14; 11; 8; 5; 6].
Definition shift_right : list Z :=
  [8; 9; 9; 11; 13; 15; 15; 5; 7; 7; 8; 11; 14; 14; 12; 6;
   9; 13; 15; 7; 12; 8; 9; 11; 7; 7; 12; 7; 6; 15; 13; 11;
   9; 7; 15; 11; 8; 6; 6; 14; 12; 13; 5; 14; 13; 13; 7; 5;
   15; 5; 8; 11; 14; 14; 6; 14; 6; 9; 12; 9; 12; 5; 15; 8;
   8; 5; 12; 9; 12; 5; 14; 6; 8; 13; 6; 5; 15; 13; 11; 11].
Definition added_left : list Z :=
  [0; 0x5A827999; 0x6ED9EBA1; 0x8F1BBCDC; 0xA953FD4E].
Definition added_right : list Z :=
  [0x50A28BE6; 0x5C4DD124; 0x6D703EF3; 0x7A6D76E9; 0].

Definition state : Type := (Z * Z * Z * Z * Z)%type.

Definition step (x : list Z) (fn : nat) (k : Z) (s : state)
    (rs : nat * Z) : state :=
  let '(a, b, c, d, e) := s in
  let t := word (rol (snd rs) (word (a + f fn b c d + nth (fst rs) x 0 + k))
                 + e) in
  (e, t, b, rol 10 c, d).

(** One line: 80 steps, the round of step [j] being [j / 16]. *)
Fixpoint line (x : list Z) (fns : nat -> nat) (ks : list Z) (j : nat)
    (steps : list (nat * Z)) (s : state) : state :=
  match steps with
  | [] => s
  | rs :: rest =>
      let round := (j / 16)%nat in
      line x fns ks (S j) rest (step x (fns round) (nth round ks 0) s rs)
  end.

Definition le_digits (len : nat) (n : Z) : bytes := rev (be_digits len n).
Definition int_from_le (b : bytes) : Z := int_from_bytes (rev b).

Fixpoint chunks (size count : nat) (l : bytes) : list bytes :=
  match count with
  | O => []
  | S c => firstn size l :: chunks size c (skipn size l)
  end.

Definition compress (h : state) (block : bytes) : state :=
  let x := map int_from_le (chunks 4 16 block) in
  let '(h0, h1, h2, h3, h4) := h in
  let '(a, b, c, d, e) :=
    line x (fun r => r) added_left 0 (combine word_left shift_left) h in
  let '(a', b', c', d', e') :=
    line x (fun r => (4 - r)%nat) added_right 0
         (combine word_right shift_right) h in
  (word (h1 + c + d'), word (h2 + d + e'), word (h3 + e + a'),
   word (h4 + a + b'), word (h0 + b + c')).

Definition initial_state : state :=
  (0x67452301, 0xEFCDAB89, 0x98BADCFE, 0x10325476, 0xC3D2E1F0).

Definition pad (msg : bytes) : bytes :=
  let len := Z.of_nat (length msg) in
  msg ++ [x80] ++ repeat x00 (Z.to_nat ((55 - len) mod 64))
      ++ le_digits 8 (8 * len).

Definition digest (msg : bytes) : bytes :=
  let padded := pad msg in
  let blocks := chunks 64 (length padded / 64) padded in
  let '(h0, h1, h2, h3, h4) := fold_left compress blocks initial_state in
  le_digits 4 h0 ++ le_digits 4 h1 ++ le_digits 4 h2 ++ le_digits 4 h3
    ++ le_digits 4 h4.

End RIPEMD160.

(** ** An executable secp256k1

    What the spec requires of the curve library: scalar multiplication and
    point addition over the secp256k1 group, and the compressed SEC form,
    33 bytes led by 0x02 or 0x03. The curve is [y^2 = x^3 + 7] over the
    field of [P] elements; it is computed on machine-word integers, in
    Jacobian coordinates. A point is [None] (the point at infinity) or its
    affine coordinates. *)

Module Secp256k1.

Definition P : Z := 2 ^ 256 - 2 ^ 32 - 977.
Definition Gx : Z :=
  0x79BE667EF9DCBBAC55A06295CE870B07029BFCDB2DCE28D959F2815B16F81798.
Definition Gy : Z :=
  0x483ADA7726A3C4655DA4FBFC0E1108A8FD17B448A68554199C47D08FFB10D4B8.

Definition point : Type := option (Z * Z).
Definition jacobian : Type := (bigZ * bigZ * bigZ)%type.

Definition bigP : bigZ := Eval vm_compute in BigZ.of_Z P.
Definition fmul (a b : bigZ) : bigZ := BigZ.modulo (BigZ.mul a b) bigP.
Definition fsub (a b : bigZ) : bigZ := BigZ.modulo (BigZ.sub a b) bigP.
Definition small (n : Z) : bigZ := BigZ.of_Z n.

Fixpoint fpow (b : bigZ) (e : positive) : bigZ :=
  match e with
  | xH => BigZ.modulo b bigP
  | xO e' => let r := fpow b e' in fmul r r
  | xI e' => let r := fpow b e' in fmul (fmul r r) b
  end.

Definition finv (a : bigZ) : bigZ := fpow a (Z.to_pos (P - 2)).
Definition fsqrt (a : bigZ) : bigZ := fpow a (Z.to_pos ((P + 1) / 4)).

Definition infinity : jacobian := (small 0, small 1, small 0).

Definition double (p : jacobian) : jacobian :=
  let '(x, y, z) := p in
  if BigZ.eqb y (small 0) then infinity
  else
    let yy := fmul y y in
    let s := fmul (small 4) (fmul x yy) in
    let m := fmul (small 3) (fmul x x) in
    let x' := fsub (fmul m m) (fmul (small 2) s) in
    let y' := fsub (fmul m (fsub s x')) (fmul (small 8) (fmul yy yy)) in
    (x', y', fmul (small 2) (fmul y z)).

Definition add (p q : jacobian) : jacobian :=
  let '(x1, y1, z1) := p in
  let '(x2, y2, z2) := q in
  if BigZ.eqb z1 (small 0) then q
  else if BigZ.eqb z2 (small 0) then p
  else
    let z1z1 := fmul z1 z1 in
    let z2z2 := fmul z2 z2 in
    let u1 := fmul x1 z2z2 in
    let u2 := fmul x2 z1z1 in
    let s1 := fmul y1 (fmul z2 z2z2) in
    let s2 := fmul y2 (fmul z1 z1z1) in
    if BigZ.eqb u1 u2 then
      if BigZ.eqb s1 s2 then double p else infinity
    else
      let h := fsub u2 u1 in
      let r := fsub s2 s1 in
      let hh := fmul h h in
      let hhh := fmul h hh in
      let v := fmul u1 hh in
      let x3 := fsub (fsub (fmul r r) hhh) (fmul (small 2) v) in
      let y3 := fsub (fmul r (fsub v x3)) (fmul s1 hhh) in
      (x3, y3, fmul h (fmul z1 z2)).

Fixpoint multiple (k : positive) (p : jacobian) : jacobian :=
  match k with
  | xH => p
  | xO k' => double (multiple k' p)
  | xI k' => add (double (multiple k' p)) p
  end.

Definition to_jacobian (p : point) : jacobian :=
  match p with
  | Some (x, y) => (BigZ.of_Z x, BigZ.of_Z y, small 1)
  | None => infinity
  end.

Definition of_jacobian (p : jacobian) : point :=
  let '(x, y, z) := p in
  if BigZ.eqb z (small 0) then None
  else
    let zi := finv z in
    let zi2 := fmul zi zi in
    Some (BigZ.to_Z (fmul x zi2), BigZ.to_Z (fmul y (fmul zi zi2))).

(** [coefficient * point], the coefficient being reduced modulo the
    order first. *)
Definition rmul (order coefficient : Z) (p : point) : point :=
  match coefficient mod order with
  | Zpos k => of_jacobian (multiple k (to_jacobian p))
  | _ => None
  end.

Definition point_add (p q : point) : point :=
  of_jacobian (add (to_jacobian p) (to_jacobian q)).

Definition on_curve (x y : Z) : bool := (y * y - (x * x * x + 7)) mod P =? 0.

(** Compressed SEC form; the point at infinity has none. *)
Definition sec (p : point) : option bytes :=
  match p with
  | Some (x, y) => Some ((if Z.even y then x02 else x03) :: be_digits 32 x)
  | None => None
  end.

(** From the compressed form (parity byte, then [x]) or the uncompressed
    one (0x04, then [x] and [y]); a result off the curve is refused. *)
Definition parse (b : bytes) : option point :=
  match b with
  | [] => None
  | prefix :: rest =>
      if byte_to_Z prefix =? 4 then
        let x := int_from_bytes (firstn 32 rest) in
        let y := int_from_bytes (skipn 32 rest) in
        if on_curve x y then Some (Some (x, y)) else None
      else
        let x := int_from_bytes rest in
        let beta :=
          BigZ.to_Z (fsqrt (BigZ.of_Z ((x * x * x + 7) mod P))) in
        let y :=
          if Bool.eqb (Z.even beta) (byte_to_Z prefix =? 2) then beta
          else P - beta in
        if on_curve x y then Some (Some (x, y)) else None
  end.

End Secp256k1.

(** ** Collaborators to run the code on *)

(** [hashlib] and [hmac], executable. *)
Definition py_hashlib : Hashlib := {|
  sha256_digest := SHA2.digest SHA2.sha256;
  ripemd160_digest := RIPEMD160.digest;
  hmac_sha512 := hmac_digest (SHA2.digest SHA2.sha512) 128
|}.

(** The order of the secp256k1 group ([ecc.N]). *)
Definition secp256k1_order : Z :=
  0xFFFFFFFFFFFFFFFFFFFFFFFFFFFFFFFEBAAEDCE6AF48A03BBFD25E8CD0364141.

(** [ecc] on the curve itself: the test suite is replayed with it. The
    assumptions on [ecc] are not proved of it (they are the group law of
    the curve); the theorems that need them are run on the groups below. *)
Definition secp256k1 : Ecc := {|
  S256Point := Secp256k1.point;
  G := Some (Secp256k1.Gx, Secp256k1.Gy);
  N_order := secp256k1_order;
  rmul := Secp256k1.rmul secp256k1_order;
  point_add := Secp256k1.point_add;
  sec := Secp256k1.sec;
  S256Point_parse := Secp256k1.parse
|}.

(** Groups of which the assumptions on [ecc] are proved: the integers
    modulo [n] under addition, generated by 1. A point is its residue;
    the SEC form is a parity byte and the residue on 32 bytes; the neutral
    element has no SEC form. *)
Definition additive_group (n : Z) : Ecc := {|
  S256Point := Z;
  G := 1;
  N_order := n;
  rmul := fun k P => (k * P) mod n;
  point_add := fun P Q => (P + Q) mod n;
  sec := fun P =>
    if P =? 0 then None
    else Some ((if Z.even P then x02 else x03) :: be_digits 32 P);
  S256Point_parse := fun b =>
    match b with
    | _ :: rest => Some (int_from_bytes rest)
    | [] => None
    end
|}.

(** The one of the curve's order, and one of order 7 in which a left half
    above the order and a zero child scalar are easy to come by. *)
Definition additive_ecc : Ecc := additive_group secp256k1_order.
Definition small_ecc : Ecc := additive_group 7.

(** ** Encoded keys of the test suite ([bip32_test.py]) *)

Definition ROOT_XPRV : str := list_ascii_of_string
  "xprv9s21ZrQH143K3eWTAaVhmX3pjg5dy3qQvj5yMk63Gtnt52kunpXjB2JK3NC55eYgHKuCbp93qUPjo5iHVvdEZAWxUo5PvaH8vCxBBT5aTiN".
Definition ROOT_XPUB : str := list_ascii_of_string
  "xpub661MyMwAqRbcG8avGc2i8ezZHhv8NWZGHx1aA8VeqEKrwq64LMqyipcnteYvY8cBqUVkrYWbXnEVmTyjvQZwRuvKXfhpXi7cSBtwN1P7nGf".
Definition DERIVATION_PATH_XPRV : list str := map list_ascii_of_string
  ["xprv9zjDV8f2hhxzR73YLoA7e6sFEDwLN8XpnMEVRwwTVyG2W2hBvUMBVcvu1fEE8W7NtN7hoMdC9BohNGjYakn5UUwsq3ppuZWjArsSi1Fw7Ak";
   "xprvA16btDp914GUBy8JkyHGkW99XanQicCByhr9A1vqX5LTMSgi9Yv2yHe6C4vJJqew5sZcWRVxhfox2wHJGnq4YuVWexrTj5ou1wrhxrUgrii"]%string.
Definition DERIVATION_PATH_XPUB : list str := map list_ascii_of_string
  ["xpub6DiZteBvY5XHdb81Sph81EoynFmpmbFg9aA6ELM54Jo1Nq2LU1fS3RFNrtreGsBXnwJNcurR9vvBvR2zoP47nMC4nhrdRoBWx7hvnSPQmG1";
   "xpub6E5xHjM2qRpmQTCmrzpH7e5t5ccu84v3LvmjxQLT5QsSEF1rh6EHX5xa3N5UQDjhZTfwr27rUfiVzaFuFsBzMy49KC9qzZA4M5barAiDAxZ"]%string.

(** [ROOT_XPRV] with its last character changed: the checksum's last byte
    is off by one. *)
Definition ROOT_XPRV_FLIPPED : str := list_ascii_of_string
  "xprv9s21ZrQH143K3eWTAaVhmX3pjg5dy3qQvj5yMk63Gtnt52kunpXjB2JK3NC55eYgHKuCbp93qUPjo5iHVvdEZAWxUo5PvaH8vCxBBT5aTiM".

(** The nodes [ROOT_XPRV] and [ROOT_XPUB] encode. *)
Definition root_chaincode : bytes :=
  be_digits 32
    0x9f955a35f122d8bbb212c208b5f03713ef8bb310ea4ab06ac145bf1ac4c26868.
Definition root_xprv : Xkey :=
  mkXkey
    (be_digits 32
       0x0b738510807bce8307d01bfd2f7786328242a1d7d2f20312ae3f50da7145d7eb)
    root_chaincode true true 0 0 None.
Definition root_xpub : Xkey :=
  mkXkey
    (be_digits 33
       0x02ba7c4894f4ba50e775fd06d8acb7476adb9029e2c1c4c3913091e86e61ae05a6)
    root_chaincode true false 0 0 None.

(** The derivation paths of the test suite, and the nodes the first one
    leads to from [root_xprv]: private, and projected to public. *)
Definition PATHS : list (list (Z * bool)) :=
  [[(0, true); (0, false); (5, false); (1, true)];
   [(0, false); (3, true); (16, true); (12, false)]].

Definition path0_parent_pubkey : bytes :=
  be_digits 33
    0x0305fd51f35279fc86cffd3892067502d87cf977bebacdf1446d0e49d913082caa.
Definition path0_chaincode : bytes :=
  be_digits 32
    0x725f9134dad93f6d403b59e9a84507b3660d46ef1472bc0ef8a39d75fe03e449.
Definition path0_xprv : Xkey :=
  mkXkey
    (be_digits 32
       0xf5da42ae3750ae999266aae34ea468624a51f971a15fc154284dd21688bb7b7b)
    path0_chaincode false true 4 (2 ^ 31 + 1) (Some path0_parent_pubkey).
Definition path0_xpub : Xkey :=
  mkXkey
    (be_digits 33
       0x023d2335a459e90c867d35abb04a999862c967d40606e1853dc32c46f109af15f1)
    path0_chaincode false false 4 (2 ^ 31 + 1) (Some path0_parent_pubkey).

(** The bytes an encoded key decodes to (empty when decoding raises). *)
Definition decoded (s : str) : bytes :=
  match decode_base58 s with
  | OK d => d
  | Err _ => []
  end.

(** A node with the [root] flag set and with the key material of
    [root_xprv], storing a depth, an index and a parent key all the same. *)
Definition flagged_root : Xkey :=
  mkXkey (key root_xprv) root_chaincode true true 5 7 (Some (key root_xpub)).

(** ** Base58 strings, for the properties of the two converters *)

(** The character belongs to the Base58 alphabet. *)
Definition in_alphabet (c : ascii) : bool :=
  is_some (str_index c BASE58_ALPHABET).

(** The number of ['1'] characters a string starts with. *)
Fixpoint count_leading_ones (s : str) : nat :=
  match s with
  | c :: rest =>
      if Ascii.eqb c "1"%char then S (count_leading_ones rest) else O
  | [] => O
  end.

(** The depth a node counts for when children are derived from it. *)
Definition derivation_depth (r : Xkey) : Z := if root r then 0 else depth r.

(** The SEC form the library returns is the compressed one: 33 bytes
    that begin with 0x02 or 0x03. *)
Definition sec_is_compressed (E : Ecc) : Prop :=
  forall (P : S256Point) (b : bytes),
    sec P = Some b -> sec_compressed b = true.

(** ** [bip32_helper.py]: the printer of derivation paths *)

(** [str(index)] for an [int]: its decimal digits, after a minus sign for
    a negative one. *)
Definition py_str (n : Z) : str :=
  list_ascii_of_string (DecimalString.NilZero.string_of_int (Z.to_int n)).

Definition derivation_path_string (path : list (Z * bool)) (private : bool)
  : str :=
  let result := if private then ["m"%char] else ["M"%char] in
  fold_left
    (fun result (item : Z * bool) =>
       let result := result ++ ["/"%char] in
       let (index, hardened) := item in
       if hardened then result ++ (py_str index ++ ["'"%char])
       else result ++ py_str index)
    path result.

(** The characters that separate the items of a printed path. *)
Definition path_mark (c : ascii) : bool :=
  Ascii.eqb c "/"%char || Ascii.eqb c "'"%char.

(** What one item of the path adds to the string. *)
Definition path_item (item : Z * bool) : str :=
  let (index, hardened) := item in
  ["/"%char] ++ py_str index ++ (if hardened then ["'"%char] else []).

(** * Properties *)

(** ** Bytes and integers *)

Lemma byte_of_to_Z (b : byte) : byte_of_Z (byte_to_Z b) = b.
Proof.
  unfold byte_of_Z, byte_to_Z.
  rewrite N2Z.id, Byte.of_to_N. reflexivity.
Qed.

Lemma byte_to_Z_range (b : byte) : 0 <= byte_to_Z b < 256.
Proof.
  unfold byte_to_Z. pose proof (Byte.to_N_bounded b). lia.
Qed.

Lemma byte_to_of_Z (z : Z) : 0 <= z < 256 -> byte_to_Z (byte_of_Z z) = z.
Proof.
  intros Hz. unfold byte_of_Z, byte_to_Z.
  destruct (Byte.of_N (Z.to_N z)) as [b|] eqn:Hb.
  - apply Byte.to_of_N in Hb. rewrite Hb. lia.
  - apply Byte.of_N_None_iff in Hb. lia.
Qed.

Lemma bytes_eqb_eq (a b : bytes) : bytes_eqb a b = true <-> a = b.
Proof.
  revert b. induction a as [|x a IH]; intros [|y b]; simpl;
    try (split; congruence).
  rewrite andb_true_iff, IH. split.
  - intros [Hxy ->]. apply Byte.byte_dec_bl in Hxy. now subst.
  - intros Heq. injection Heq as -> ->. split; [|reflexivity].
    now apply Byte.byte_dec_lb.
Qed.

Lemma bytes_eqb_refl (a : bytes) : bytes_eqb a a = true.
Proof. now apply bytes_eqb_eq. Qed.

Lemma bytes_eqb_neq (a b : bytes) : bytes_eqb a b = false <-> a <> b.
Proof.
  rewrite <- bytes_eqb_eq. destruct (bytes_eqb a b); split; congruence.
Qed.

Lemma fold_from_bytes_acc (bs : bytes) (acc : Z) :
  fold_left (fun a b => a * 256 + byte_to_Z b) bs acc
  = acc * 256 ^ Z.of_nat (length bs) + int_from_bytes bs.
Proof.
  unfold int_from_bytes. revert acc.
  induction bs as [|b bs IH]; intros acc.
  - simpl. lia.
  - cbn [fold_left length]. rewrite IH, (IH (0 * 256 + byte_to_Z b)).
    rewrite Nat2Z.inj_succ, Z.pow_succ_r by lia. ring.
Qed.

Lemma int_from_bytes_app (a b : bytes) :
  int_from_bytes (a ++ b)
  = int_from_bytes a * 256 ^ Z.of_nat (length b) + int_from_bytes b.
Proof.
  unfold int_from_bytes at 1. rewrite fold_left_app.
  fold (int_from_bytes a). apply fold_from_bytes_acc.
Qed.

Lemma int_from_bytes_snoc (a : bytes) (b : byte) :
  int_from_bytes (a ++ [b]) = int_from_bytes a * 256 + byte_to_Z b.
Proof.
  rewrite int_from_bytes_app. cbn. lia.
Qed.

Lemma int_from_bytes_range (bs : bytes) :
  0 <= int_from_bytes bs < 256 ^ Z.of_nat (length bs).
Proof.
  induction bs as [|b bs IH] using rev_ind.
  - cbn. lia.
  - rewrite int_from_bytes_snoc, length_app, Nat2Z.inj_add.
    cbn [length]. rewrite Z.pow_add_r by lia.
    pose proof (byte_to_Z_range b). change (256 ^ Z.of_nat 1) with 256. lia.
Qed.

Lemma be_digits_length (len : nat) (n : Z) : length (be_digits len n) = len.
Proof.
  revert n. induction len as [|len IH]; intros n; simpl.
  - reflexivity.
  - rewrite length_app, IH. simpl. lia.
Qed.

(** Writing a byte string as an integer and back, on the same length,
    gives the byte string. *)
Lemma be_digits_int_from_bytes (bs : bytes) :
  be_digits (length bs) (int_from_bytes bs) = bs.
Proof.
  induction bs as [|b bs IH] using rev_ind.
  - reflexivity.
  - rewrite length_app, Nat.add_comm. cbn [length Nat.add be_digits].
    rewrite int_from_bytes_snoc.
    pose proof (byte_to_Z_range b).
    replace ((int_from_bytes bs * 256 + byte_to_Z b) / 256)
      with (int_from_bytes bs)
      by (apply Z.div_unique with (r := byte_to_Z b); lia).
    replace ((int_from_bytes bs * 256 + byte_to_Z b) mod 256)
      with (byte_to_Z b)
      by (apply Z.mod_unique with (q := int_from_bytes bs); lia).
    now rewrite IH, byte_of_to_Z.
Qed.

Lemma int_from_be_digits (len : nat) (n : Z) :
  0 <= n < 256 ^ Z.of_nat len -> int_from_bytes (be_digits len n) = n.
Proof.
  revert n. induction len as [|len IH]; intros n Hn.
  - cbn in *. lia.
  - cbn [be_digits]. rewrite int_from_bytes_snoc.
    rewrite Nat2Z.inj_succ, Z.pow_succ_r in Hn by lia.
    rewrite IH.
    + rewrite byte_to_of_Z by (apply Z.mod_pos_bound; lia).
      pose proof (Z.div_mod n 256). lia.
    + split; [apply Z.div_pos; lia|].
      apply Z.div_lt_upper_bound; lia.
Qed.

Lemma int_to_bytes_from_bytes (bs : bytes) :
  int_to_bytes (int_from_bytes bs) (length bs) = OK bs.
Proof.
  unfold int_to_bytes. pose proof (int_from_bytes_range bs) as Hr.
  destruct (Z.ltb_spec (int_from_bytes bs) 0); [lia|].
  destruct (Z.leb_spec (256 ^ Z.of_nat (length bs)) (int_from_bytes bs));
    [lia|].
  now rewrite be_digits_int_from_bytes.
Qed.

Lemma int_to_bytes_ok (n : Z) (len : nat) :
  0 <= n < 256 ^ Z.of_nat len -> int_to_bytes n len = OK (be_digits len n).
Proof.
  intros Hn. unfold int_to_bytes.
  destruct (Z.ltb_spec n 0); [lia|].
  destruct (Z.leb_spec (256 ^ Z.of_nat len) n); [lia|reflexivity].
Qed.

Lemma int_to_bytes_length (n : Z) (len : nat) (b : bytes) :
  int_to_bytes n len = OK b -> length b = len.
Proof.
  unfold int_to_bytes.
  destruct (n <? 0); [discriminate|].
  destruct (256 ^ Z.of_nat len <=? n); [discriminate|].
  intros [= <-]. apply be_digits_length.
Qed.

(** ** Base58 *)

Lemma alphabet_index_at_all :
  forallb (fun i => match alphabet_index (alphabet_at (Z.of_nat i)) with
                    | OK j => j =? Z.of_nat i
                    | Err _ => false
                    end) (seq 0 58) = true.
Proof. vm_compute. reflexivity. Qed.

(** Every digit value has its character, and [index] finds it back. *)
Lemma alphabet_index_at (m : Z) :
  0 <= m < 58 -> alphabet_index (alphabet_at m) = OK m.
Proof.
  intros Hm. pose proof alphabet_index_at_all as Hall.
  rewrite forallb_forall in Hall.
  specialize (Hall (Z.to_nat m)).
  rewrite Z2Nat.id in Hall by lia.
  destruct (alphabet_index (alphabet_at m)) as [j|e].
  - f_equal. apply Z.eqb_eq. apply Hall. apply in_seq. lia.
  - discriminate Hall. apply in_seq. lia.
Qed.

Lemma decode_loop_app (a b : str) (num : Z) :
  decode_loop num (a ++ b) = (n <- decode_loop num a ;; decode_loop n b).
Proof.
  revert num. induction a as [|c a IH]; intros num; simpl.
  - reflexivity.
  - destruct (alphabet_index c); simpl; [apply IH|reflexivity].
Qed.

Lemma encode_loop_acc (fuel : nat) (num : Z) (acc : str) :
  encode_loop fuel num acc = encode_loop fuel num [] ++ acc.
Proof.
  revert num acc. induction fuel as [|fuel IH]; intros num acc; simpl.
  - reflexivity.
  - destruct (0 <? num); [|reflexivity].
    rewrite IH, (IH _ [_]), <- app_assoc. reflexivity.
Qed.

Lemma div58_lt_pow2 (n : Z) (f : nat) :
  0 < n < 2 ^ Z.of_nat (S f) -> 0 <= n / 58 < 2 ^ Z.of_nat f.
Proof.
  rewrite Nat2Z.inj_succ, Z.pow_succ_r by lia. intros Hn.
  split; [apply Z.div_pos; lia|].
  apply Z.div_lt_upper_bound; lia.
Qed.

(** With enough fuel the bounded loop satisfies the equation of the
    [while] loop: test [num > 0], run the body, loop again. *)
Lemma encode_loop_unfold (fuel : nat) (num : Z) (acc : str) :
  0 <= num < 2 ^ Z.of_nat fuel ->
  encode_loop fuel num acc
  = if 0 <? num
    then encode_loop fuel (num / 58) (alphabet_at (num mod 58) :: acc)
    else acc.
Proof.
  revert num acc. induction fuel as [|fuel IH]; intros num acc Hn.
  - cbn in Hn. destruct (Z.ltb_spec 0 num); [lia|reflexivity].
  - cbn [encode_loop]. destruct (Z.ltb_spec 0 num) as [Hpos|]; [|reflexivity].
    pose proof (div58_lt_pow2 num fuel ltac:(lia)) as Hd.
    rewrite IH by lia.
    destruct (Z.ltb_spec 0 (num / 58)); [|reflexivity].
    cbn [encode_loop]. destruct (Z.ltb_spec 0 (num / 58)); [|lia].
    reflexivity.
Qed.

(** Two amounts of fuel that both suffice give the same string. *)
Lemma encode_loop_fuel_irrelevant (f1 f2 : nat) (num : Z) (acc : str) :
  0 <= num < 2 ^ Z.of_nat f1 -> 0 <= num < 2 ^ Z.of_nat f2 ->
  encode_loop f1 num acc = encode_loop f2 num acc.
Proof.
  revert f2 num acc. induction f1 as [|f1 IH]; intros f2 num acc H1 H2.
  - cbn in H1. assert (num = 0) as -> by lia. now destruct f2.
  - destruct f2 as [|f2].
    + cbn in H2. assert (num = 0) as -> by lia. reflexivity.
    + cbn [encode_loop]. destruct (Z.ltb_spec 0 num); [|reflexivity].
      apply IH; apply div58_lt_pow2; lia.
Qed.

Lemma encode_fuel_enough (num : Z) :
  0 <= num -> 0 <= num < 2 ^ Z.of_nat (encode_fuel num).
Proof.
  intros Hn. split; [assumption|]. unfold encode_fuel.
  rewrite Nat2Z.inj_succ, Z2Nat.id by apply Z.log2_nonneg.
  destruct (Z.eq_dec num 0) as [->|]; [cbn; lia|].
  apply Z.log2_spec. lia.
Qed.

(** The [while num > 0] loop, with the fuel [encode_base58] gives it. *)
Lemma encode_while_equation (num : Z) (acc : str) :
  0 <= num ->
  encode_loop (encode_fuel num) num acc
  = if 0 <? num
    then encode_loop (encode_fuel (num / 58)) (num / 58)
                     (alphabet_at (num mod 58) :: acc)
    else acc.
Proof.
  intros Hn. rewrite encode_loop_unfold by now apply encode_fuel_enough.
  destruct (Z.ltb_spec 0 num) as [Hpos|]; [|reflexivity].
  assert (Hq : 0 <= num / 58) by (apply Z.div_pos; lia).
  pose proof (encode_fuel_enough num Hn) as [_ Hbig].
  assert (Hsmall : num / 58 < 2 ^ Z.of_nat (encode_fuel num)).
  { apply Z.le_lt_trans with num; [|assumption].
    apply Z.div_le_upper_bound; lia. }
  generalize (alphabet_at (num mod 58) :: acc). intros acc'.
  apply encode_loop_fuel_irrelevant; [lia|now apply encode_fuel_enough].
Qed.

Lemma decode_encode_loop (fuel : nat) (num : Z) :
  0 <= num < 2 ^ Z.of_nat fuel ->
  decode_loop 0 (encode_loop fuel num []) = OK num.
Proof.
  revert num. induction fuel as [|fuel IH]; intros num Hn.
  - cbn in *. f_equal. lia.
  - cbn [encode_loop]. destruct (Z.ltb_spec 0 num) as [Hpos|].
    + rewrite encode_loop_acc, decode_loop_app.
      rewrite IH by (apply div58_lt_pow2; lia).
      cbn [bind decode_loop].
      rewrite alphabet_index_at by (apply Z.mod_pos_bound; lia).
      cbn [bind]. f_equal. pose proof (Z.div_mod num 58). lia.
    + cbn. f_equal. lia.
Qed.

Lemma decode_loop_ones (count : nat) (s : str) :
  decode_loop 0 (repeat "1"%char count ++ s) = decode_loop 0 s.
Proof.
  induction count as [|count IH]; [reflexivity|].
  cbn [repeat app decode_loop].
  change (alphabet_index "1"%char) with (@OK Z 0). cbn [bind].
  exact IH.
Qed.

(** Decoding an encoding reads the same integer, re-written on 82 bytes. *)
Lemma decode_encode_base58 (data : bytes) :
  decode_base58 (encode_base58 data) = int_to_bytes (int_from_bytes data) 82.
Proof.
  unfold decode_base58, encode_base58.
  rewrite decode_loop_ones, decode_encode_loop.
  - reflexivity.
  - apply encode_fuel_enough. apply int_from_bytes_range.
Qed.

Lemma decode_encode_base58_82 (data : bytes) :
  length data = 82%nat -> decode_base58 (encode_base58 data) = OK data.
Proof.
  intros Hlen. rewrite decode_encode_base58, <- Hlen.
  apply int_to_bytes_from_bytes.
Qed.

Lemma decode_base58_length (s : str) (d : bytes) :
  decode_base58 s = OK d -> length d = 82%nat.
Proof.
  unfold decode_base58. destruct (decode_loop 0 s); [|discriminate].
  apply int_to_bytes_length.
Qed.

(** ** Node equality and validity *)

Lemma option_bytes_eqb_eq (a b : option bytes) :
  option_bytes_eqb a b = true <-> a = b.
Proof.
  destruct a as [x|], b as [y|]; simpl; try (split; congruence).
  rewrite bytes_eqb_eq. split; congruence.
Qed.

(** [__eq__] holds exactly of nodes whose seven fields agree. *)
Lemma Xkey_eq_spec (x y : Xkey) : Xkey_eq x y = true <-> x = y.
Proof.
  unfold Xkey_eq. rewrite !andb_true_iff, !bytes_eqb_eq, !Z.eqb_eq,
    !Bool.eqb_true_iff, option_bytes_eqb_eq.
  destruct x, y; simpl. split.
  - intros [[[[[[-> ->] ->] ->] ->] ->] ->]. reflexivity.
  - intros [= -> -> -> -> -> -> ->]. repeat split.
Qed.

Lemma Xkey_init_child (k c pk : bytes) (p : bool) (d i : Z) :
  d <> 0 ->
  Xkey_init k c p false d i (Some pk) = OK (mkXkey k c false p d i (Some pk)).
Proof.
  intros Hd. unfold Xkey_init. cbn [negb].
  destruct (Z.eqb_spec d 0); [contradiction|reflexivity].
Qed.

Lemma well_formed_spec (x : Xkey) :
  well_formed x = true ->
  0 <= depth x /\
  (root x = false -> depth x <> 0 /\ exists pk, parent_pubkey x = Some pk).
Proof.
  unfold well_formed. rewrite andb_true_iff, orb_true_iff, andb_true_iff,
    negb_true_iff, Z.leb_le, Z.eqb_neq.
  intros [Hd [Hr|[Hd0 Hp]]]; split; try assumption.
  - intros Hnr. congruence.
  - intros _. split; [assumption|].
    destruct (parent_pubkey x) as [pk|]; [now exists pk|discriminate].
Qed.

(** A well-formed node is one [__init__] accepts. *)
Lemma Xkey_init_well_formed (x : Xkey) :
  well_formed x = true ->
  Xkey_init (key x) (chaincode x) (private_key x) (root x) (depth x)
            (index x) (parent_pubkey x) = OK x.
Proof.
  intros Hwf. apply well_formed_spec in Hwf as [_ Hnr].
  destruct x as [k c r p d i pp]; cbn [key chaincode private_key root depth
    index parent_pubkey] in *.
  destruct r; [reflexivity|].
  destruct (Hnr eq_refl) as [Hd [pk ->]].
  now apply Xkey_init_child.
Qed.

Lemma sec_compressed_spec (k : bytes) :
  sec_compressed k = true ->
  length k = 33%nat /\ exists b rest, k = b :: rest /\ byte_to_Z b <> 0.
Proof.
  unfold sec_compressed. rewrite andb_true_iff, Nat.eqb_eq.
  intros [Hlen Hhd]. split; [assumption|].
  destruct k as [|b rest]; [discriminate|]. exists b, rest.
  split; [reflexivity|].
  apply orb_true_iff in Hhd as [Hb|Hb]; apply Byte.byte_dec_bl in Hb;
    subst b; discriminate.
Qed.

(** ** Reading fields off a stream *)

Lemma read_app (n : nat) (a b : bytes) :
  length a = n -> read n (a ++ b) = (a, b).
Proof.
  intros <-. unfold read.
  rewrite firstn_app, skipn_app, Nat.sub_diag, firstn_all, skipn_all.
  cbn. now rewrite app_nil_r.
Qed.

Lemma slice_last_app (n : nat) (a b : bytes) :
  length b = n -> slice_last n (a ++ b) = b.
Proof.
  intros <-. unfold slice_last.
  rewrite length_app, Nat.add_sub, skipn_app, Nat.sub_diag, skipn_all.
  reflexivity.
Qed.

Lemma slice_drop_last_app (n : nat) (a b : bytes) :
  length b = n -> slice_drop_last n (a ++ b) = a.
Proof.
  intros <-. unfold slice_drop_last.
  rewrite length_app, Nat.add_sub, firstn_app, Nat.sub_diag, firstn_all.
  cbn. now rewrite app_nil_r.
Qed.

(** ** The wire codec *)

Section Codec.
Context {H : Hashlib}.
Hypothesis sha256_len : sha256_length H.

Lemma hash256_checksum_length (data : bytes) :
  length (firstn 4 (hash256 data)) = 4%nat.
Proof.
  unfold hash256. rewrite length_firstn, sha256_len. reflexivity.
Qed.

(** An encoded 78-byte payload decodes to the payload and its checksum. *)
Lemma decode_encode_checksum (payload : bytes) :
  length payload = 78%nat ->
  decode_base58 (encode_base58_checksum payload)
  = OK (payload ++ firstn 4 (hash256 payload)).
Proof.
  intros Hlen. unfold encode_base58_checksum.
  apply decode_encode_base58_82.
  rewrite length_app, hash256_checksum_length, Hlen. reflexivity.
Qed.

(** What [parse_from_bip32] computes from an encoded payload laid out as
    version, depth byte, fingerprint, index, chain code and key field. *)
Lemma parse_laid_out (V F I C K : bytes) (db : byte) (pp : option bytes) :
  length V = 4%nat -> length F = 4%nat -> length I = 4%nat ->
  length C = 32%nat -> length K = 33%nat ->
  parse_from_bip32
    (encode_base58_checksum (V ++ [db] ++ F ++ I ++ C ++ K)) pp
  = (private_key <-
       (if bytes_eqb V XPRV_VERSION then OK true
        else if bytes_eqb V XPUB_VERSION then OK false
        else Err (ValueError "Unsupported BIP32 Key Format")) ;;
     root <-
       (if (byte_to_Z db =? 0) && bytes_eqb F (repeat x00 4)
           && (int_from_bytes I =? 0)
        then OK true
        else
          h <- hash160 pp ;;
          if negb (bytes_eqb (firstn 4 h) F)
          then Err (ValueError "Fingerprint mismatch!")
          else OK false) ;;
     key0 <- getitem0 K ;;
     Xkey_init (if key0 =? 0 then skipn 1 K else K) C private_key root
               (byte_to_Z db) (int_from_bytes I) pp).
Proof.
  intros HV HF HI HC HK. unfold parse_from_bip32.
  rewrite decode_encode_checksum
    by (rewrite !length_app, HV, HF, HI, HC, HK; reflexivity).
  cbn [bind].
  rewrite slice_last_app, slice_drop_last_app
    by apply hash256_checksum_length.
  rewrite bytes_eqb_refl. cbn [negb].
  rewrite (read_app 4 V) by assumption.
  destruct (if bytes_eqb V XPRV_VERSION then OK true
            else if bytes_eqb V XPUB_VERSION then OK false
            else Err (ValueError "Unsupported BIP32 Key Format"))
    as [pk|e]; [|reflexivity].
  cbn [bind].
  rewrite (read_app 1 [db]) by reflexivity.
  cbn [getitem0 bind].
  rewrite (read_app 4 F), (read_app 4 I) by assumption.
  match goal with
  | |- bind ?r _ = bind ?r _ => destruct r as [rt|e]; [|reflexivity]
  end.
  cbn [bind].
  rewrite (read_app 32 C) by assumption.
  replace K with (K ++ []) at 1 by apply app_nil_r.
  rewrite (read_app 33 K) by assumption.
  reflexivity.
Qed.

End Codec.

Section Roundtrip.
Context {H : Hashlib}.
Hypothesis sha256_len : sha256_length H.
Hypothesis ripemd160_len : ripemd160_length H.

Lemma valid_node_spec (x : Xkey) :
  valid_node x = true ->
  well_formed x = true /\
  (if private_key x then length (key x) = 32%nat
   else sec_compressed (key x) = true) /\
  length (chaincode x) = 32%nat /\
  0 <= depth x < 256 /\ 0 <= index x < 2 ^ 32 /\
  (root x = true -> depth x = 0 /\ index x = 0 /\ parent_pubkey x = None).
Proof.
  unfold valid_node. rewrite !andb_true_iff.
  intros [[[[[[Hwf Hk] Hc] Hd] Hi0] Hi] Hr].
  pose proof (well_formed_spec x Hwf) as [Hd0 _].
  apply Nat.eqb_eq in Hc. apply Z.ltb_lt in Hd, Hi. apply Z.leb_le in Hi0.
  repeat split; try assumption.
  - destruct (private_key x); [now apply Nat.eqb_eq|assumption].
  - destruct (root x); [|discriminate].
    rewrite !andb_true_iff in Hr. destruct Hr as [[Hr _] _].
    now apply Z.eqb_eq.
  - destruct (root x); [|discriminate].
    rewrite !andb_true_iff in Hr. destruct Hr as [[_ Hr] _].
    now apply Z.eqb_eq.
  - destruct (root x); [|discriminate].
    rewrite !andb_true_iff in Hr. destruct Hr as [_ Hr].
    destruct (parent_pubkey x); [discriminate|reflexivity].
Qed.

Lemma version_check (p : bool) :
  (if bytes_eqb (if p then XPRV_VERSION else XPUB_VERSION) XPRV_VERSION
   then OK true
   else if bytes_eqb (if p then XPRV_VERSION else XPUB_VERSION) XPUB_VERSION
        then OK false
        else Err (ValueError "Unsupported BIP32 Key Format"))
  = OK p.
Proof. destruct p; reflexivity. Qed.

Lemma version_length (p : bool) :
  length (if p then XPRV_VERSION else XPUB_VERSION) = 4%nat.
Proof. destruct p; reflexivity. Qed.

Lemma serialize_root (x : Xkey) :
  root x = true ->
  serialize x
  = OK (encode_base58_checksum
          ((if private_key x then XPRV_VERSION else XPUB_VERSION)
             ++ [x00] ++ repeat x00 4 ++ repeat x00 4
             ++ chaincode x ++ key_field x)).
Proof.
  intros Hr. unfold serialize, key_field. rewrite Hr. cbn [bind].
  destruct (private_key x); rewrite <- ?app_assoc; reflexivity.
Qed.

Lemma serialize_child (x : Xkey) (pk : bytes) :
  root x = false -> parent_pubkey x = Some pk ->
  0 <= depth x < 256 -> 0 <= index x < 2 ^ 32 ->
  serialize x
  = OK (encode_base58_checksum
          ((if private_key x then XPRV_VERSION else XPUB_VERSION)
             ++ [byte_of_Z (depth x)]
             ++ firstn 4 (ripemd160_digest (sha256_digest pk))
             ++ be_digits 4 (index x)
             ++ chaincode x ++ key_field x)).
Proof.
  intros Hr Hpp Hd Hi. unfold serialize, key_field, bytes_of_int.
  rewrite Hr, Hpp.
  destruct (Z.leb_spec 0 (depth x)); [|lia].
  destruct (Z.ltb_spec (depth x) 256); [|lia].
  cbn [andb bind hash160].
  rewrite int_to_bytes_ok by (change (256 ^ Z.of_nat 4) with (2 ^ 32); lia).
  cbn [bind]. destruct (private_key x); rewrite <- ?app_assoc; reflexivity.
Qed.

Lemma key_field_spec (x : Xkey) :
  valid_node x = true ->
  length (key_field x) = 33%nat /\
  exists k0, getitem0 (key_field x) = OK k0 /\
             (if k0 =? 0 then skipn 1 (key_field x) else key_field x) = key x.
Proof.
  intros Hv. apply valid_node_spec in Hv as (_ & Hk & _).
  unfold key_field. destruct (private_key x).
  - split; [cbn; now rewrite Hk|]. exists 0. split; reflexivity.
  - apply sec_compressed_spec in Hk as [Hlen (b & rest & Hkey & Hb)].
    split; [assumption|]. rewrite Hkey. exists (byte_to_Z b).
    split; [reflexivity|].
    destruct (Z.eqb_spec (byte_to_Z b) 0); [contradiction|reflexivity].
Qed.

(** C1. For every valid node [x] (root or not, private or public),
    [serialize] succeeds and parsing its output with [x]'s own parent
    public key returns a node that [__eq__] finds equal to [x] on all
    seven fields; the returned node is [x] itself. *)
Theorem parse_serialize_roundtrip (x : Xkey) :
  valid_node x = true ->
  exists (s : str) (y : Xkey),
    serialize x = OK s /\
    parse_from_bip32 s (parent_pubkey x) = OK y /\
    Xkey_eq y x = true /\ y = x.
Proof.
  intros Hv.
  pose proof (key_field_spec x Hv) as [HK (k0 & Hk0 & Hkey)].
  pose proof (valid_node_spec x Hv) as (Hwf & _ & HC & Hd & Hi & Hroot).
  pose proof (well_formed_spec x Hwf) as [_ Hnr].
  pose proof (Xkey_init_well_formed x Hwf) as Hinit.
  destruct (root x) eqn:Hr.
  - destruct (Hroot eq_refl) as (Hd0 & Hi0 & Hpp).
    eexists. exists x. split; [now apply serialize_root|].
    split; [|split; [now apply Xkey_eq_spec|reflexivity]].
    rewrite parse_laid_out;
      auto using version_length, repeat_length.
    rewrite version_check. cbn [bind].
    change (byte_to_Z x00) with 0.
    change (int_from_bytes (repeat x00 4)) with 0.
    rewrite bytes_eqb_refl. cbn [Z.eqb andb bind].
    rewrite Hk0. cbn [bind]. rewrite Hkey.
    rewrite Hpp, Hd0, Hi0 in Hinit. rewrite Hpp. exact Hinit.
  - destruct (Hnr eq_refl) as [Hd0 [pk Hpp]].
    eexists. exists x. split; [now apply serialize_child with (pk := pk)|].
    split; [|split; [now apply Xkey_eq_spec|reflexivity]].
    rewrite parse_laid_out;
      auto using version_length, be_digits_length;
      [|rewrite length_firstn, ripemd160_len; reflexivity].
    rewrite version_check. cbn [bind].
    rewrite byte_to_of_Z by lia.
    rewrite int_from_be_digits
      by (change (256 ^ Z.of_nat 4) with (2 ^ 32); lia).
    destruct (Z.eqb_spec (depth x) 0); [contradiction|].
    rewrite Hpp. cbn [andb bind hash160].
    rewrite bytes_eqb_refl. cbn [negb bind].
    rewrite Hk0. cbn [bind]. rewrite Hkey.
    rewrite Hpp in Hinit. exact Hinit.
Qed.

End Roundtrip.

(** ** Child derivation *)

Section Derivation.
Context {H : Hashlib} {E : Ecc}.

(** [__init__] accepts the fields of a well-formed node under another key,
    chain code and variant. *)
Lemma Xkey_init_same_position (x : Xkey) (k c : bytes) (p : bool) :
  well_formed x = true ->
  Xkey_init k c p (root x) (depth x) (index x) (parent_pubkey x)
  = OK (mkXkey k c (root x) p (depth x) (index x) (parent_pubkey x)).
Proof.
  intros Hwf. apply well_formed_spec in Hwf as [_ Hnr].
  destruct (root x); [reflexivity|].
  destruct (Hnr eq_refl) as [Hd [pk ->]]. now apply Xkey_init_child.
Qed.

Lemma child_depth_nonzero (x : Xkey) :
  well_formed x = true -> (if root x then 1 else depth x + 1) <> 0.
Proof.
  intros Hwf. apply well_formed_spec in Hwf as [Hd _].
  destruct (root x); lia.
Qed.

Lemma scalar_to_bytes (t : Z) :
  order_fits E ->
  int_to_bytes (t mod N_order) 32 = OK (be_digits 32 (t mod N_order)) /\
  int_from_bytes (be_digits 32 (t mod N_order)) = t mod N_order.
Proof.
  intros [Hpos Hle].
  assert (Hr : 0 <= t mod N_order < 256 ^ Z.of_nat 32).
  { pose proof (Z.mod_pos_bound t N_order Hpos).
    change (256 ^ Z.of_nat 32) with (2 ^ 256). lia. }
  split; [now apply int_to_bytes_ok|now apply int_from_be_digits].
Qed.

(** C3. On a public node, every index [>= 2^31] makes [derive_child_seed]
    raise "Cannot use hardened index!" (no node is returned), and no
    index [< 2^31] makes it raise that error. *)
Theorem public_hardened_rejected (p : Xkey) (i : Z) :
  private_key p = false ->
  (2 ^ 31 <= i ->
   derive_child_seed p i = Err (ValueError "Cannot use hardened index!")) /\
  (i < 2 ^ 31 ->
   derive_child_seed p i <> Err (ValueError "Cannot use hardened index!")).
Proof.
  intros Hpub. unfold derive_child_seed. rewrite Hpub. split; intros Hi.
  - destruct (Z.leb_spec (2 ^ 31) i); [reflexivity|lia].
  - destruct (Z.leb_spec (2 ^ 31) i); [lia|].
    unfold int_to_bytes.
    destruct (i <? 0); [discriminate|].
    destruct (256 ^ Z.of_nat 4 <=? i); [discriminate|].
    cbn [bind]. unfold ecc_call.
    destruct (S256Point_parse (key p)); [|discriminate].
    cbn [bind].
    destruct (sec _); [|discriminate].
    cbn [bind]. unfold Xkey_init. cbn [negb].
    destruct (_ =? 0); discriminate.
Qed.

(** C4. For a private parent whose public key the curve library returns,
    and every index that fits in four bytes, [derive_child_seed] returns
    a child whose key is the 32-byte big-endian form of
    [(parent scalar + left) mod N] and whose chain code is the right half
    (bytes 32..64) of HMAC-SHA512 keyed by the parent's chain code; nothing
    is assumed of the sum, so a zero scalar and a [left >= N] go through
    like any other value. *)
Theorem private_child_key (p : Xkey) (i : Z) (pubkey : bytes) :
  order_fits E -> hmac_sha512_length H ->
  private_key p = true ->
  get_pubkey_sec (key p) = OK pubkey ->
  0 <= i < 2 ^ 32 ->
  (root p = false -> depth p + 1 <> 0) ->
  let data :=
    if 2 ^ 31 <=? i then [x00] ++ key p ++ be_digits 4 i
    else pubkey ++ be_digits 4 i in
  let full_node := hmac_sha512 (chaincode p) data in
  let left := firstn 32 full_node in
  let right := firstn 32 (skipn 32 full_node) in
  let scalar := (int_from_bytes (key p) + int_from_bytes left) mod N_order in
  full_node = left ++ right /\
  derive_child_seed p i
  = OK (mkXkey (be_digits 32 scalar) right false true
               (if root p then 1 else depth p + 1) i (Some pubkey)).
Proof.
  intros Hfit Hlen Hpriv Hpk Hi Hdepth data full_node left right scalar.
  assert (Hright : skipn 32 full_node = right).
  { unfold right. symmetry. apply firstn_all2.
    rewrite length_skipn. unfold full_node. rewrite Hlen. cbn. lia. }
  split.
  { rewrite <- Hright. symmetry. apply firstn_skipn. }
  unfold derive_child_seed. rewrite Hpriv, Hpk. cbn [bind].
  rewrite int_to_bytes_ok by (change (256 ^ Z.of_nat 4) with (2 ^ 32); lia).
  assert (Hdata :
    (if 2 ^ 31 <=? i
     then bind (OK (be_digits 4 i))
            (fun ib => OK (pubkey, [x00] ++ key p ++ ib))
     else bind (OK (be_digits 4 i)) (fun ib => OK (pubkey, pubkey ++ ib)))
    = OK (pubkey, data)).
  { unfold data. destruct (2 ^ 31 <=? i); reflexivity. }
  rewrite Hdata. cbn [bind].
  fold full_node. fold left. rewrite Hright.
  destruct (scalar_to_bytes (int_from_bytes (key p) + int_from_bytes left) Hfit)
    as [Hto _].
  fold scalar in Hto. fold scalar. rewrite Hto. cbn [bind].
  apply Xkey_init_child. destruct (root p); [lia|auto].
Qed.

End Derivation.

Section PublicProjection.
Context {H : Hashlib} {E : Ecc}.
Hypothesis order_ok : order_fits E.
Hypothesis additive : rmul_G_additive E.
Hypothesis parse_sec : parse_sec_inverse E.

(** The public key of a derived private child is the parent's point plus
    the left half times [G], serialised. *)
Lemma child_pubkey_sum (k l : Z) :
  get_pubkey_sec (be_digits 32 ((k + l) mod N_order))
  = ecc_call (sec (point_add (rmul k G) (rmul l G))).
Proof.
  unfold get_pubkey_sec.
  destruct (scalar_to_bytes (k + l) order_ok) as [_ ->].
  now rewrite additive.
Qed.

(** C2. For every well-formed private node [p] and every index
    [i < 2^31], deriving child [i] and projecting it to public has the
    same outcome as projecting [p] to public and deriving child [i]:
    the same exception, or nodes equal on all seven fields. *)
Theorem derive_pubkey_commutes (p : Xkey) (i : Z) :
  private_key p = true -> well_formed p = true -> i < 2 ^ 31 ->
  (c <- derive_child_seed p i ;; derive_pubkey c)
  = (q <- derive_pubkey p ;; derive_child_seed q i) /\
  forall c c', derive_child_seed p i = OK c -> derive_pubkey c = OK c' ->
    exists q d, derive_pubkey p = OK q /\ derive_child_seed q i = OK d /\
                Xkey_eq c' d = true.
Proof.
  intros Hpriv Hwf Hi.
  assert (Heq : (c <- derive_child_seed p i ;; derive_pubkey c)
                = (q <- derive_pubkey p ;; derive_child_seed q i)).
  { unfold derive_pubkey at 2. rewrite Hpriv. cbn [negb].
    unfold derive_child_seed at 1. rewrite Hpriv.
    unfold get_pubkey_sec at 1 2.
    destruct (sec (rmul (int_from_bytes (key p)) G)) as [pk|] eqn:Hsec;
      [|reflexivity].
    cbn [ecc_call bind].
    rewrite (Xkey_init_same_position p pk (chaincode p) false Hwf).
    cbn [bind]. unfold derive_child_seed.
    cbn [private_key key chaincode root depth].
    destruct (Z.leb_spec (2 ^ 31) i); [lia|].
    destruct (int_to_bytes i 4) as [ib|e]; [|reflexivity].
    cbn [bind].
    rewrite (parse_sec _ _ Hsec). cbn [ecc_call bind].
    set (l := int_from_bytes (firstn 32 (hmac_sha512 (chaincode p) (pk ++ ib)))).
    set (right := skipn 32 (hmac_sha512 (chaincode p) (pk ++ ib))).
    destruct (scalar_to_bytes (int_from_bytes (key p) + l) order_ok)
      as [-> _].
    cbn [bind].
    rewrite Xkey_init_child by now apply child_depth_nonzero.
    cbn [bind]. unfold derive_pubkey. cbn [private_key negb key].
    rewrite child_pubkey_sum.
    destruct (sec (point_add (rmul (int_from_bytes (key p)) G) (rmul l G)))
      as [ck|]; [|reflexivity].
    cbn [ecc_call bind chaincode root depth index parent_pubkey].
    reflexivity. }
  split; [exact Heq|].
  intros c c' Hc Hc'. rewrite Hc in Heq. cbn [bind] in Heq.
  rewrite Hc' in Heq.
  destruct (derive_pubkey p) as [q|e]; [|discriminate].
  cbn [bind] in Heq. exists q, c'.
  split; [reflexivity|]. split; [now symmetry|]. now apply Xkey_eq_spec.
Qed.

End PublicProjection.

(** ** Path derivation *)

Section Paths.
Context {H : Hashlib} {E : Ecc}.

Lemma derive_path_step_encode (seed : Xkey) (item : Z * bool) :
  derive_path_step seed item = derive_child_seed seed (encode_step item).
Proof. destruct item as [i h]. reflexivity. Qed.

(** Once an iteration has raised, the remaining ones are not run. *)
Lemma derive_loop_raised (e : error) (path : list (Z * bool)) :
  fold_left (fun seed item => s <- seed ;; derive_path_step s item)
            path (Err e) = Err e.
Proof. induction path as [|item path IH]; [reflexivity|exact IH]. Qed.

Lemma derive_path_cons (r : Xkey) (item : Z * bool) (path : list (Z * bool)) :
  derive_path r (item :: path)
  = (c <- derive_child_seed r (encode_step item) ;; derive_path c path).
Proof.
  unfold derive_path. cbn [fold_left bind].
  rewrite derive_path_step_encode.
  destruct (derive_child_seed r (encode_step item)) as [c|e];
    [reflexivity|apply derive_loop_raised].
Qed.

(** C8. [derive_path] is the left-to-right fold of [derive_child_seed]
    over the steps, [2^31] being added to the index of each hardened step
    before the call; on the empty sequence it returns the node it was
    given. *)
Theorem derive_path_folds (r : Xkey) (path : list (Z * bool)) :
  derive_path r path = derive_path_spec r path /\
  derive_path r [] = OK r /\
  (forall i h rest,
     derive_path r ((i, h) :: rest)
     = (c <- derive_child_seed r (if h then i + 2 ^ 31 else i) ;;
        derive_path c rest)).
Proof.
  split; [|split; [reflexivity|intros; apply derive_path_cons]].
  revert r. induction path as [|item path IH]; intros r; [reflexivity|].
  rewrite derive_path_cons. cbn [derive_path_spec].
  destruct (derive_child_seed r (encode_step item)) as [c|e];
    [apply IH|reflexivity].
Qed.

End Paths.

(** ** Construction *)

(** C5, as the code has it. [__init__] raises [AssertionError] for every
    non-root node without a parent public key and for every non-root node
    of depth zero, returning no node; a root node is constructed from any
    fields, its depth included. *)
Theorem Xkey_init_guards :
  (forall k c p d i, Xkey_init k c p false d i None = Err AssertionError) /\
  (forall k c p i pp, Xkey_init k c p false 0 i pp = Err AssertionError) /\
  (forall k c p d i pp,
     Xkey_init k c p true d i pp = OK (mkXkey k c true p d i pp)).
Proof.
  split; [|split].
  - intros. unfold Xkey_init. cbn [negb]. destruct (d =? 0); reflexivity.
  - reflexivity.
  - reflexivity.
Qed.

(** C5, counterexample. A root node of depth 5 is constructed: no
    exception is raised. *)
Lemma Xkey_init_root_nonzero_depth :
  Xkey_init (key root_xprv) root_chaincode true true 5 0 None
  = OK (mkXkey (key root_xprv) root_chaincode true true 5 0 None) /\
  is_err (Xkey_init (key root_xprv) root_chaincode true true 5 0 None)
  = false.
Proof. split; reflexivity. Qed.

(** ** Parsing, field by field *)

Section Parsing.
Context {H : Hashlib}.

(** [parse_from_bip32] in terms of the wire layout: the stream reads are
    the fields at their offsets. *)
Lemma parse_decoded (s : str) (d : bytes) (pp : option bytes) :
  decode_base58 s = OK d ->
  parse_from_bip32 s pp
  = if negb (checksum_ok d) then Err (ValueError "Checksum mismatch!")
    else
      let p := wire_payload d in
      private_key <-
        match known_version p with
        | Some b => OK b
        | None => Err (ValueError "Unsupported BIP32 Key Format")
        end ;;
      depth <- wire_depth p ;;
      root <-
        (if (depth =? 0) && bytes_eqb (wire_fingerprint p) (repeat x00 4)
            && (wire_index p =? 0)
         then OK true
         else
           h <- hash160 pp ;;
           if negb (bytes_eqb (firstn 4 h) (wire_fingerprint p))
           then Err (ValueError "Fingerprint mismatch!")
           else OK false) ;;
      key0 <- getitem0 (wire_key p) ;;
      Xkey_init (if key0 =? 0 then skipn 1 (wire_key p) else wire_key p)
                (wire_chaincode p) private_key root depth (wire_index p) pp.
Proof.
  intros Hd. unfold parse_from_bip32. rewrite Hd. cbn [bind].
  unfold checksum_ok, wire_checksum, wire_payload.
  destruct (negb _); [reflexivity|].
  unfold read, known_version, wire_version, wire_depth, wire_fingerprint,
    wire_index, wire_chaincode, wire_key.
  cbv zeta. rewrite !skipn_skipn. cbn [Nat.add].
  destruct (bytes_eqb _ XPRV_VERSION); [reflexivity|].
  destruct (bytes_eqb _ XPUB_VERSION); reflexivity.
Qed.

Lemma wire_lengths (s : str) (d : bytes) :
  decode_base58 s = OK d ->
  length d = 82%nat /\ length (wire_payload d) = 78%nat /\
  length (wire_checksum d) = 4%nat /\
  d = wire_payload d ++ wire_checksum d.
Proof.
  intros Hd. apply decode_base58_length in Hd.
  unfold wire_payload, wire_checksum, slice_drop_last, slice_last.
  rewrite Hd, length_firstn, length_skipn, Hd, firstn_skipn.
  repeat split; reflexivity.
Qed.

Lemma wire_key_nonempty (p : bytes) :
  length p = 78%nat ->
  exists b rest, wire_key p = b :: rest.
Proof.
  intros Hp. unfold wire_key.
  assert (Hlen : length (firstn 33 (skipn 45 p)) = 33%nat)
    by (rewrite length_firstn, length_skipn, Hp; reflexivity).
  destruct (firstn 33 (skipn 45 p)) as [|b rest]; [discriminate|].
  now exists b, rest.
Qed.

(** C7. [parse_from_bip32] first Base58-decodes: an exception of the
    decoder is the outcome; otherwise the decoded bytes are 82, a 78-byte
    payload followed by a 4-byte checksum, and whenever the checksum
    differs from the first 4 bytes of the double SHA-256 of the payload
    the outcome is "Checksum mismatch!", whatever the payload holds as
    version, depth, fingerprint, index and key and whatever parent key is
    supplied. *)
Theorem checksum_checked_first (s : str) (pp : option bytes) :
  (forall e, decode_base58 s = Err e -> parse_from_bip32 s pp = Err e) /\
  (forall d, decode_base58 s = OK d ->
     length d = 82%nat /\ length (wire_payload d) = 78%nat /\
     length (wire_checksum d) = 4%nat /\
     d = wire_payload d ++ wire_checksum d /\
     (wire_checksum d <> firstn 4 (hash256 (wire_payload d)) ->
      parse_from_bip32 s pp = Err (ValueError "Checksum mismatch!"))).
Proof.
  split.
  - intros e He. unfold parse_from_bip32. now rewrite He.
  - intros d Hd. pose proof (wire_lengths s d Hd) as (H82 & H78 & H4 & Happ).
    repeat split; try assumption.
    intros Hneq. rewrite (parse_decoded s d pp Hd).
    unfold checksum_ok. apply bytes_eqb_neq in Hneq. now rewrite Hneq.
Qed.

(** C6, as the code has it. When the payload is marked as a root (depth
    0, fingerprint 0, index 0), the checksum holds and the version is
    known, [parse_from_bip32] returns a root node for every parent key
    argument, present or absent, without comparing it to the fingerprint;
    the argument is stored as the node's [parent_pubkey] and the other six
    fields do not depend on it. *)
Theorem parse_root_marked (s : str) (d : bytes) (priv : bool) :
  decode_base58 s = OK d ->
  checksum_ok d = true ->
  known_version (wire_payload d) = Some priv ->
  root_marked (wire_payload d) = true ->
  forall pp : option bytes,
    parse_from_bip32 s pp
    = OK (mkXkey (stripped_key (wire_payload d))
                 (wire_chaincode (wire_payload d)) true priv 0 0 pp).
Proof.
  intros Hd Hck Hver Hroot pp.
  rewrite (parse_decoded s d pp Hd), Hck. cbn [negb]. cbv zeta.
  rewrite Hver. cbn [bind].
  unfold root_marked in Hroot.
  destruct (wire_depth (wire_payload d)) as [depth|]; [|discriminate].
  cbn [bind]. rewrite Hroot. cbn [bind].
  rewrite !andb_true_iff, !Z.eqb_eq in Hroot.
  destruct Hroot as [[-> _] ->].
  destruct (wire_lengths s d Hd) as (_ & H78 & _).
  destruct (wire_key_nonempty _ H78) as (b & rest & Hkey).
  unfold stripped_key. rewrite Hkey. cbn [getitem0 bind skipn].
  destruct (byte_to_Z b =? 0); reflexivity.
Qed.

(** C9. When the payload is not marked as a root, [parse_from_bip32]
    called without a parent key raises and returns no node, and the
    exception is never "Fingerprint mismatch!": once the checksum and the
    version have passed it is the [TypeError] of hashing [None]. *)
Theorem parse_child_without_parent (s : str) (d : bytes) :
  decode_base58 s = OK d ->
  root_marked (wire_payload d) = false ->
  (exists e, parse_from_bip32 s None = Err e /\
             e <> ValueError "Fingerprint mismatch!") /\
  (forall priv, checksum_ok d = true ->
     known_version (wire_payload d) = Some priv ->
     parse_from_bip32 s None = Err TypeError).
Proof.
  intros Hd Hroot. rewrite (parse_decoded s d None Hd). cbv zeta.
  unfold root_marked in Hroot.
  split.
  - destruct (checksum_ok d); cbn [negb];
      [|eexists; split; [reflexivity|discriminate]].
    destruct (known_version _); cbn [bind];
      [|eexists; split; [reflexivity|discriminate]].
    destruct (wire_depth _) as [depth|e] eqn:Hdepth; cbn [bind].
    + rewrite Hroot. cbn [hash160 bind].
      eexists; split; [reflexivity|discriminate].
    + eexists; split; [reflexivity|].
      unfold wire_depth, getitem0 in Hdepth.
      destruct (firstn 1 _); [|discriminate].
      injection Hdepth as <-. discriminate.
  - intros priv -> ->. cbn [negb bind].
    destruct (wire_lengths s d Hd) as (_ & H78 & _).
    destruct (wire_depth _) as [depth|e] eqn:Hdepth; cbn [bind].
    + rewrite Hroot. reflexivity.
    + exfalso. unfold wire_depth in Hdepth.
      assert (Hlen : length (firstn 1 (skipn 4 (wire_payload d))) = 1%nat)
        by (rewrite length_firstn, length_skipn, H78; reflexivity).
      destruct (firstn 1 _); discriminate.
Qed.

End Parsing.

(** ** Serialising the position fields *)

Section Position.
Context {H : Hashlib}.

(** C10. For a node whose [root] flag is set, [serialize] writes a zero
    depth byte, a zero fingerprint and a zero index whatever the node
    stores as depth, index and parent key; the stored depth, the parent's
    fingerprint and the stored index are what it writes for a node whose
    flag is not set. *)
Theorem serialize_position_fields (x : Xkey) :
  (root x = true ->
   serialize x
   = OK (encode_base58_checksum
           ((if private_key x then XPRV_VERSION else XPUB_VERSION)
              ++ [x00] ++ repeat x00 4 ++ repeat x00 4
              ++ chaincode x ++ key_field x)) /\
   forall d i pp,
     serialize (mkXkey (key x) (chaincode x) true (private_key x) d i pp)
     = serialize x) /\
  (root x = false ->
   forall pk, parent_pubkey x = Some pk ->
     0 <= depth x < 256 -> 0 <= index x < 2 ^ 32 ->
     serialize x
     = OK (encode_base58_checksum
             ((if private_key x then XPRV_VERSION else XPUB_VERSION)
                ++ [byte_of_Z (depth x)]
                ++ firstn 4 (ripemd160_digest (sha256_digest pk))
                ++ be_digits 4 (index x)
                ++ chaincode x ++ key_field x))).
Proof.
  split.
  - intros Hr. split; [now apply serialize_root|].
    intros d i pp. now rewrite !serialize_root.
  - intros Hr pk Hpp Hd Hi. now apply serialize_child.
Qed.

End Position.

(** ** The collaborators used to run the code meet the assumptions *)

Section SHA2Length.
Variable v : SHA2.variant.

Lemma SHA2_round_length (s : list Z) (kw : Z * Z) :
  length (SHA2.round v s kw) = length s.
Proof.
  unfold SHA2.round.
  do 9 (destruct s as [|? s]; try reflexivity).
Qed.

Lemma SHA2_compress_length (state : list Z) (block : bytes) :
  length (SHA2.compress v state block) = length state.
Proof.
  unfold SHA2.compress. rewrite length_map, length_combine.
  match goal with
  | |- Nat.min _ (length (fold_left _ ?l _)) = _ => generalize l
  end.
  intros l.
  assert (Hfold : forall st,
    length (fold_left (SHA2.round v) l st) = length st).
  { induction l as [|kw l IH]; intros st; [reflexivity|].
    cbn [fold_left]. now rewrite IH, SHA2_round_length. }
  rewrite Hfold. apply Nat.min_id.
Qed.

Lemma flat_map_be_digits_length (n : nat) (ws : list Z) :
  length (flat_map (be_digits n) ws) = (n * length ws)%nat.
Proof.
  induction ws as [|w ws IH]; [cbn; lia|].
  cbn [flat_map]. rewrite length_app, IH, be_digits_length.
  cbn [length]. lia.
Qed.

Lemma SHA2_digest_length (msg : bytes) :
  length (SHA2.digest v msg)
  = (SHA2.word_bytes v * length (SHA2.initial_state v))%nat.
Proof.
  unfold SHA2.digest. rewrite flat_map_be_digits_length.
  match goal with
  | |- context [fold_left _ ?l _] => generalize l
  end.
  intros blocks.
  assert (Hfold : forall st,
    length (fold_left (SHA2.compress v) blocks st) = length st).
  { induction blocks as [|b blocks IH]; intros st; [reflexivity|].
    cbn [fold_left]. now rewrite IH, SHA2_compress_length. }
  now rewrite Hfold.
Qed.

End SHA2Length.

Lemma RIPEMD160_digest_length (msg : bytes) :
  length (RIPEMD160.digest msg) = 20%nat.
Proof.
  unfold RIPEMD160.digest.
  destruct (fold_left _ _ _) as [[[[h0 h1] h2] h3] h4].
  unfold RIPEMD160.le_digits.
  rewrite !length_app, !length_rev, !be_digits_length. reflexivity.
Qed.

Lemma py_hashlib_sha256_length : sha256_length py_hashlib.
Proof. intros d. apply (SHA2_digest_length SHA2.sha256). Qed.

Lemma py_hashlib_ripemd160_length : ripemd160_length py_hashlib.
Proof.
  intros d. apply RIPEMD160_digest_length.
Qed.

Lemma py_hashlib_hmac_length : hmac_sha512_length py_hashlib.
Proof.
  intros k m. cbn [hmac_sha512 py_hashlib]. unfold hmac_digest.
  apply (SHA2_digest_length SHA2.sha512).
Qed.

Section AdditiveGroup.
Variable n : Z.
Hypothesis n_range : 0 < n <= 2 ^ 256.

Lemma additive_group_order_fits : order_fits (additive_group n).
Proof. exact n_range. Qed.

Lemma additive_group_additive : rmul_G_additive (additive_group n).
Proof.
  intros a b. cbn [rmul G point_add N_order additive_group].
  rewrite !Z.mul_1_r, Z.mod_mod by lia.
  apply Z.add_mod. lia.
Qed.

Lemma additive_group_parse_sec : parse_sec_inverse (additive_group n).
Proof.
  intros k b. cbn [sec rmul G S256Point_parse additive_group].
  rewrite Z.mul_1_r.
  destruct (_ =? 0); [discriminate|].
  intros Hb.
  match type of Hb with
  | Some ?t = Some _ => assert (Hbt : b = t) by congruence
  end.
  rewrite Hbt, int_from_be_digits; [reflexivity|].
  pose proof (Z.mod_pos_bound k n ltac:(lia)).
  change (256 ^ Z.of_nat 32) with (2 ^ 256). lia.
Qed.

End AdditiveGroup.

Lemma secp256k1_order_range : 0 < secp256k1_order <= 2 ^ 256.
Proof. unfold secp256k1_order. lia. Qed.

Lemma small_order_range : 0 < 7 <= 2 ^ 256.
Proof. lia. Qed.

(** The digests on the standard test messages: "abc", and for HMAC the
    second case of RFC 4231. *)
Example digest_known_answers :
  int_from_bytes (SHA2.digest SHA2.sha256 (list_byte_of_string "abc"))
  = 0xba7816bf8f01cfea414140de5dae2223b00361a396177a9cb410ff61f20015ad /\
  int_from_bytes (SHA2.digest SHA2.sha512 (list_byte_of_string "abc"))
  = 0xddaf35a193617abacc417349ae20413112e6fa4e89a97ea20a9eeee64b55d39a2192992a274fc1a836ba3c23a3feebbd454d4423643ce80e2a9ac94fa54ca49f /\
  int_from_bytes (RIPEMD160.digest (list_byte_of_string "abc"))
  = 0x8eb208f7e05d987a9b044a8e98c6b087f15a0bfc /\
  int_from_bytes
    (hmac_digest (SHA2.digest SHA2.sha512) 128 (list_byte_of_string "Jefe")
                 (list_byte_of_string "what do ya want for nothing?"))
  = 0x164b7a7bfcf819e2e395fbe73b56e0a387bd64222e831fd610270cd7ea2505549758bf75c05a994a6d034f65f8f0e6fdcaeab1a34d4a6b4b636e070a38bce737.
Proof.
  split; [vm_compute; reflexivity|].
  split; [vm_compute; reflexivity|].
  split; vm_compute; reflexivity.
Qed.

(** ** The test suite, replayed

    [bip32_test.py] on the embedding, with the executable digests and
    curve. The fixture's seed comes from a file that is not among the
    sources; the root it yields is the one [ROOT_XPRV] encodes, as the
    first test asserts. *)

(** [test_root_private_key]: the root serialises to the published string,
    which parses back to it. *)
Example test_root_private_key :
  serialize (H := py_hashlib) root_xprv = OK ROOT_XPRV /\
  parse_from_bip32 (H := py_hashlib) ROOT_XPRV None = OK root_xprv.
Proof. split; vm_compute; reflexivity. Qed.

(** [test_root_public_key]: so does its public projection. *)
Example test_root_public_key :
  derive_pubkey (E := secp256k1) root_xprv = OK root_xpub /\
  serialize (H := py_hashlib) root_xpub = OK ROOT_XPUB /\
  parse_from_bip32 (H := py_hashlib) ROOT_XPUB None = OK root_xpub.
Proof.
  split; [vm_compute; reflexivity|]. split; vm_compute; reflexivity.
Qed.

(** [test_derive_private_key_based_on_path], first path. *)
Example test_derive_private_key_based_on_path :
  derive_path (H := py_hashlib) (E := secp256k1) root_xprv (nth 0 PATHS [])
  = OK path0_xprv /\
  serialize (H := py_hashlib) path0_xprv = OK (nth 0 DERIVATION_PATH_XPRV []) /\
  parse_from_bip32 (H := py_hashlib) (nth 0 DERIVATION_PATH_XPRV [])
                   (parent_pubkey path0_xprv) = OK path0_xprv.
Proof.
  split; [vm_compute; reflexivity|]. split; vm_compute; reflexivity.
Qed.

(** [test_derive_public_key_based_on_path], first path. *)
Example test_derive_public_key_based_on_path :
  derive_pubkey (E := secp256k1) path0_xprv = OK path0_xpub /\
  serialize (H := py_hashlib) path0_xpub = OK (nth 0 DERIVATION_PATH_XPUB []) /\
  parse_from_bip32 (H := py_hashlib) (nth 0 DERIVATION_PATH_XPUB [])
                   (parent_pubkey path0_xprv) = OK path0_xpub.
Proof.
  split; [vm_compute; reflexivity|]. split; vm_compute; reflexivity.
Qed.

(** Both tests on the second path: the derived node and its projection
    serialise to the published strings. *)
Example test_second_path :
  exists x p,
    derive_path (H := py_hashlib) (E := secp256k1) root_xprv (nth 1 PATHS [])
    = OK x /\
    serialize (H := py_hashlib) x = OK (nth 1 DERIVATION_PATH_XPRV []) /\
    derive_pubkey (E := secp256k1) x = OK p /\
    serialize (H := py_hashlib) p = OK (nth 1 DERIVATION_PATH_XPUB []).
Proof.
  eexists. eexists.
  split; [vm_compute; reflexivity|].
  split; [vm_compute; reflexivity|].
  split; [vm_compute; reflexivity|].
  vm_compute; reflexivity.
Qed.

(** The two ways to the public child 0 of the root give the same node on
    the curve ([test_derive_child_public_key_method_1] and [_2]). *)
Example test_derive_child_public_key :
  exists d,
    (c <- derive_child_seed (H := py_hashlib) (E := secp256k1) root_xprv 0 ;;
     derive_pubkey (E := secp256k1) c) = OK d /\
    derive_child_seed (H := py_hashlib) (E := secp256k1) root_xpub 0 = OK d.
Proof.
  eexists. split; [vm_compute; reflexivity|]. vm_compute; reflexivity.
Qed.

(** The checksum of each of the six published strings verifies. *)
Example published_checksums :
  forallb (fun s => checksum_ok (H := py_hashlib) (decoded s))
          ([ROOT_XPRV; ROOT_XPUB] ++ DERIVATION_PATH_XPRV
             ++ DERIVATION_PATH_XPUB) = true.
Proof. vm_compute. reflexivity. Qed.

(** ** The theorems at concrete inputs *)

(** C1 at [path0_xprv], the private node the first test path leads to. *)
Lemma parse_serialize_roundtrip_witness :
  valid_node path0_xprv = true /\
  exists (s : str) (y : Xkey),
    serialize (H := py_hashlib) path0_xprv = OK s /\
    parse_from_bip32 (H := py_hashlib) s (parent_pubkey path0_xprv)
    = OK y /\
    Xkey_eq y path0_xprv = true /\ y = path0_xprv.
Proof.
  split; [reflexivity|].
  apply (parse_serialize_roundtrip (H := py_hashlib)
           py_hashlib_sha256_length py_hashlib_ripemd160_length).
  reflexivity.
Defined.

(** C2 at [root_xprv] and index 0: both orders return a node. *)
Lemma derive_pubkey_commutes_witness :
  private_key root_xprv = true /\ well_formed root_xprv = true /\
  is_err (q <- derive_pubkey (E := additive_ecc) root_xprv ;;
          derive_child_seed (H := py_hashlib) (E := additive_ecc) q 0)
  = false /\
  (c <- derive_child_seed (H := py_hashlib) (E := additive_ecc)
          root_xprv 0 ;;
   derive_pubkey (E := additive_ecc) c)
  = (q <- derive_pubkey (E := additive_ecc) root_xprv ;;
     derive_child_seed (H := py_hashlib) (E := additive_ecc) q 0).
Proof.
  split; [reflexivity|]. split; [reflexivity|].
  split; [vm_compute; reflexivity|].
  apply (derive_pubkey_commutes (H := py_hashlib) (E := additive_ecc)
           (additive_group_order_fits _ secp256k1_order_range)
           (additive_group_additive _ secp256k1_order_range)
           (additive_group_parse_sec _ secp256k1_order_range) root_xprv 0);
    [reflexivity|reflexivity|lia].
Defined.

(** C3 at [root_xpub]: index [2^31] is refused, index 5 is not. *)
Lemma public_hardened_rejected_witness :
  private_key root_xpub = false /\
  derive_child_seed (H := py_hashlib) (E := secp256k1) root_xpub (2 ^ 31)
  = Err (ValueError "Cannot use hardened index!") /\
  derive_child_seed (H := py_hashlib) (E := secp256k1) root_xpub 5
  <> Err (ValueError "Cannot use hardened index!").
Proof.
  split; [reflexivity|]. split.
  - apply (public_hardened_rejected (H := py_hashlib) (E := secp256k1)
             root_xpub (2 ^ 31)); [reflexivity|lia].
  - apply (public_hardened_rejected (H := py_hashlib) (E := secp256k1)
             root_xpub 5); [reflexivity|lia].
Defined.

(** C4 at [root_xprv] and index 18. In the group of order 7 the left half
    exceeds the order and the child has the zero scalar: it is returned
    like any other child. *)
Lemma private_child_key_witness :
  let pubkey := x02 :: be_digits 32 4 in
  let full_node :=
    hmac_sha512 (Hashlib := py_hashlib) (chaincode root_xprv)
                (pubkey ++ be_digits 4 18) in
  get_pubkey_sec (E := small_ecc) (key root_xprv) = OK pubkey /\
  N_order (Ecc := small_ecc) <= int_from_bytes (firstn 32 full_node) /\
  derive_child_seed (H := py_hashlib) (E := small_ecc) root_xprv 18
  = OK (mkXkey (repeat x00 32) (firstn 32 (skipn 32 full_node))
               false true 1 18 (Some pubkey)).
Proof.
  intros pubkey full_node.
  assert (Hpk : get_pubkey_sec (E := small_ecc) (key root_xprv) = OK pubkey)
    by reflexivity.
  assert (Hi : 0 <= 18 < 2 ^ 32) by lia.
  assert (Hdepth : root root_xprv = false -> depth root_xprv + 1 <> 0)
    by discriminate.
  assert (Hzero :
    be_digits 32
      ((int_from_bytes (key root_xprv) + int_from_bytes (firstn 32 full_node))
         mod N_order (Ecc := small_ecc))
    = repeat x00 32) by (vm_compute; reflexivity).
  split; [exact Hpk|]. split; [vm_compute; discriminate|].
  rewrite <- Hzero.
  exact (proj2 (private_child_key (H := py_hashlib) (E := small_ecc)
                  root_xprv 18 pubkey
                  (additive_group_order_fits _ small_order_range)
                  py_hashlib_hmac_length eq_refl Hpk Hi Hdepth)).
Defined.

(** C6 at [ROOT_XPRV]: a root whatever parent key is supplied. *)
Lemma parse_root_marked_witness :
  decode_base58 ROOT_XPRV = OK (decoded ROOT_XPRV) /\
  checksum_ok (H := py_hashlib) (decoded ROOT_XPRV) = true /\
  known_version (wire_payload (decoded ROOT_XPRV)) = Some true /\
  root_marked (wire_payload (decoded ROOT_XPRV)) = true /\
  forall pp : option bytes,
    parse_from_bip32 (H := py_hashlib) ROOT_XPRV pp
    = OK (mkXkey (stripped_key (wire_payload (decoded ROOT_XPRV)))
                 (wire_chaincode (wire_payload (decoded ROOT_XPRV)))
                 true true 0 0 pp).
Proof.
  assert (Hd : decode_base58 ROOT_XPRV = OK (decoded ROOT_XPRV))
    by (vm_compute; reflexivity).
  assert (Hc : checksum_ok (H := py_hashlib) (decoded ROOT_XPRV) = true)
    by (vm_compute; reflexivity).
  assert (Hv : known_version (wire_payload (decoded ROOT_XPRV)) = Some true)
    by (vm_compute; reflexivity).
  assert (Hr : root_marked (wire_payload (decoded ROOT_XPRV)) = true)
    by (vm_compute; reflexivity).
  split; [exact Hd|]. split; [exact Hc|]. split; [exact Hv|].
  split; [exact Hr|].
  exact (parse_root_marked (H := py_hashlib) ROOT_XPRV (decoded ROOT_XPRV)
           true Hd Hc Hv Hr).
Defined.

(** C6, counterexample. [ROOT_XPRV] is marked as a root; parsing it with
    a parent key supplied returns a node whose [parent_pubkey] is that
    key, which [__eq__] tells apart from the node returned when none is
    supplied: the argument is not ignored. *)
Lemma parse_root_stores_parent :
  root_marked (wire_payload (decoded ROOT_XPRV)) = true /\
  parse_from_bip32 (H := py_hashlib) ROOT_XPRV None = OK root_xprv /\
  parse_from_bip32 (H := py_hashlib) ROOT_XPRV (Some (key root_xpub))
  = OK (mkXkey (key root_xprv) root_chaincode true true 0 0
               (Some (key root_xpub))) /\
  Xkey_eq (mkXkey (key root_xprv) root_chaincode true true 0 0
                  (Some (key root_xpub))) root_xprv = false.
Proof.
  split; [vm_compute; reflexivity|].
  split; [vm_compute; reflexivity|].
  split; vm_compute; reflexivity.
Qed.

(** C7 at [ROOT_XPRV_FLIPPED]. *)
Lemma checksum_checked_first_witness :
  decode_base58 ROOT_XPRV_FLIPPED = OK (decoded ROOT_XPRV_FLIPPED) /\
  wire_checksum (decoded ROOT_XPRV_FLIPPED)
  <> firstn 4 (hash256 (H := py_hashlib)
                 (wire_payload (decoded ROOT_XPRV_FLIPPED))) /\
  parse_from_bip32 (H := py_hashlib) ROOT_XPRV_FLIPPED None
  = Err (ValueError "Checksum mismatch!").
Proof.
  assert (Hd : decode_base58 ROOT_XPRV_FLIPPED
               = OK (decoded ROOT_XPRV_FLIPPED))
    by (vm_compute; reflexivity).
  assert (Hn : wire_checksum (decoded ROOT_XPRV_FLIPPED)
               <> firstn 4 (hash256 (H := py_hashlib)
                              (wire_payload (decoded ROOT_XPRV_FLIPPED))))
    by (vm_compute; discriminate).
  split; [exact Hd|]. split; [exact Hn|].
  destruct (proj2 (checksum_checked_first (H := py_hashlib)
                     ROOT_XPRV_FLIPPED None)
                  (decoded ROOT_XPRV_FLIPPED) Hd) as (_ & _ & _ & _ & Hck).
  exact (Hck Hn).
Defined.

(** C9 at the first published child key, a node of depth 4. *)
Lemma parse_child_without_parent_witness :
  let s := nth 0 DERIVATION_PATH_XPRV [] in
  decode_base58 s = OK (decoded s) /\
  root_marked (wire_payload (decoded s)) = false /\
  parse_from_bip32 (H := py_hashlib) s None = Err TypeError.
Proof.
  intros s.
  assert (Hd : decode_base58 s = OK (decoded s)) by (vm_compute; reflexivity).
  assert (Hr : root_marked (wire_payload (decoded s)) = false)
    by (vm_compute; reflexivity).
  split; [exact Hd|]. split; [exact Hr|].
  assert (Hc : checksum_ok (H := py_hashlib) (decoded s) = true)
    by (vm_compute; reflexivity).
  assert (Hv : known_version (wire_payload (decoded s)) = Some true)
    by (vm_compute; reflexivity).
  exact (proj2 (parse_child_without_parent (H := py_hashlib) s (decoded s)
                  Hd Hr) true Hc Hv).
Defined.

(** C10 at [flagged_root]: its depth 5, index 7 and parent key leave no
    trace in the encoding, which is that of [root_xprv]. *)
Lemma serialize_position_fields_witness :
  root flagged_root = true /\
  serialize (H := py_hashlib) flagged_root
  = serialize (H := py_hashlib) root_xprv.
Proof.
  split; [reflexivity|].
  destruct (serialize_position_fields (H := py_hashlib) root_xprv)
    as [Hroot _].
  destruct (Hroot eq_refl) as [_ Hany].
  exact (Hany 5 7 (Some (key root_xpub))).
Defined.

(** * Further properties of the code *)

(** ** [decode_base58] and [encode_base58] *)

Lemma int_from_bytes_cons (b : byte) (bs : bytes) :
  int_from_bytes (b :: bs)
  = byte_to_Z b * 256 ^ Z.of_nat (length bs) + int_from_bytes bs.
Proof.
  change (b :: bs) with ([b] ++ bs). rewrite int_from_bytes_app.
  cbn [int_from_bytes fold_left]. lia.
Qed.

Lemma be_digits_zero (n : nat) : be_digits n 0 = repeat x00 n.
Proof.
  induction n as [|n IH]; [reflexivity|].
  cbn [be_digits]. change (0 / 256) with 0. rewrite IH.
  change (byte_of_Z (0 mod 256)) with x00.
  change [x00] with (repeat x00 1). rewrite <- repeat_app.
  f_equal. lia.
Qed.

(** On more bytes than it has, a byte string is written with leading
    zeros. *)
Lemma be_digits_padded (n : nat) (bs : bytes) :
  be_digits (n + length bs) (int_from_bytes bs) = repeat x00 n ++ bs.
Proof.
  induction bs as [|b bs IH] using rev_ind.
  - cbn [length]. rewrite Nat.add_0_r, app_nil_r. apply be_digits_zero.
  - rewrite length_app. cbn [length].
    replace (n + (length bs + 1))%nat with (S (n + length bs)) by lia.
    cbn [be_digits]. rewrite int_from_bytes_snoc.
    pose proof (byte_to_Z_range b).
    replace ((int_from_bytes bs * 256 + byte_to_Z b) / 256)
      with (int_from_bytes bs)
      by (apply Z.div_unique with (r := byte_to_Z b); lia).
    replace ((int_from_bytes bs * 256 + byte_to_Z b) mod 256)
      with (byte_to_Z b)
      by (apply Z.mod_unique with (q := int_from_bytes bs); lia).
    now rewrite IH, byte_of_to_Z, app_assoc.
Qed.

Lemma pow256_le (a b : nat) : (a <= b)%nat -> 256 ^ Z.of_nat a <= 256 ^ Z.of_nat b.
Proof. intros Hab. apply Z.pow_le_mono_r; lia. Qed.

(** X1. Decoding the Base58 encoding of at most 82 bytes gives these
    bytes back, zero bytes being put in front to make 82; decoding the
    encoding of bytes whose integer does not fit in 82 bytes raises
    [OverflowError]. *)
Theorem decode_encode_base58_padded (data : bytes) :
  ((length data <= 82)%nat ->
   decode_base58 (encode_base58 data)
   = OK (repeat x00 (82 - length data) ++ data)) /\
  (256 ^ 82 <= int_from_bytes data ->
   decode_base58 (encode_base58 data) = Err OverflowError).
Proof.
  rewrite decode_encode_base58. pose proof (int_from_bytes_range data) as Hr.
  split.
  - intros Hlen. pose proof (pow256_le _ _ Hlen) as Hpow.
    rewrite int_to_bytes_ok by lia.
    replace 82%nat with ((82 - length data) + length data)%nat at 1 by lia.
    now rewrite be_digits_padded.
  - intros Hbig. unfold int_to_bytes.
    destruct (Z.ltb_spec (int_from_bytes data) 0); [reflexivity|].
    destruct (Z.leb_spec (256 ^ Z.of_nat 82) (int_from_bytes data));
      [reflexivity|].
    change (256 ^ Z.of_nat 82) with (256 ^ 82) in *. lia.
Qed.

Lemma decode_loop_foreign (s : str) (c : ascii) (num : Z) :
  In c s -> str_index c BASE58_ALPHABET = None ->
  decode_loop num s = Err (ValueError "substring not found").
Proof.
  intros Hin Hc. revert num.
  induction s as [|c' s IH]; intros num; [contradiction|].
  cbn [decode_loop]. unfold alphabet_index at 1.
  destruct (str_index c' BASE58_ALPHABET) as [i|] eqn:Hc'.
  - cbn [bind]. apply IH. destruct Hin as [->|Hin]; [congruence|assumption].
  - reflexivity.
Qed.

(** X2. A string holding a character that is not in the Base58 alphabet
    is never decoded: [decode_base58] raises the [ValueError] of
    [str.index], wherever the character stands and however long the
    string is. *)
Theorem decode_base58_foreign_character (s : str) (c : ascii) :
  In c s -> in_alphabet c = false ->
  decode_base58 s = Err (ValueError "substring not found").
Proof.
  intros Hin Hc. unfold decode_base58.
  rewrite (decode_loop_foreign s c 0 Hin); [reflexivity|].
  unfold in_alphabet in Hc.
  destruct (str_index c BASE58_ALPHABET); [discriminate|reflexivity].
Qed.

(** X3. A ['1'] in front of a string changes neither what
    [decode_base58] returns nor what [parse_from_bip32] returns: an
    encoded key is accepted with any number of ['1'] characters before
    it. *)
Theorem leading_one_ignored {H : Hashlib} (s : str) (pp : option bytes) :
  decode_base58 ("1"%char :: s) = decode_base58 s /\
  parse_from_bip32 ("1"%char :: s) pp = parse_from_bip32 s pp.
Proof.
  assert (Hd : decode_base58 ("1"%char :: s) = decode_base58 s).
  { unfold decode_base58.
    change ("1"%char :: s) with (repeat "1"%char 1 ++ s).
    now rewrite decode_loop_ones. }
  split; [exact Hd|]. unfold parse_from_bip32. now rewrite Hd.
Qed.

Lemma str_index_bound (c : ascii) (s : str) (i : nat) :
  str_index c s = Some i -> (i < length s)%nat.
Proof.
  revert i. induction s as [|x s IH]; intros i; [discriminate|].
  cbn [str_index length]. destruct (Ascii.eqb x c).
  - intros [= <-]. lia.
  - destruct (str_index c s) as [j|]; [|discriminate].
    intros [= <-]. specialize (IH j eq_refl). lia.
Qed.

Lemma alphabet_index_digit (c : ascii) :
  in_alphabet c = true -> exists i, alphabet_index c = OK i /\ 0 <= i < 58.
Proof.
  unfold in_alphabet, alphabet_index.
  destruct (str_index c BASE58_ALPHABET) as [i|] eqn:Hi; [|discriminate].
  intros _. exists (Z.of_nat i). split; [reflexivity|].
  apply str_index_bound in Hi. change (length BASE58_ALPHABET) with 58%nat in Hi.
  lia.
Qed.

(** The loop of [decode_base58] reads a string of Base58 characters as a
    number in base 58, after the digits already read. *)
Lemma decode_loop_value (s : str) (num : Z) :
  Forall (fun c => in_alphabet c = true) s ->
  exists v, decode_loop num s = OK (num * 58 ^ Z.of_nat (length s) + v) /\
            0 <= v < 58 ^ Z.of_nat (length s).
Proof.
  intros Hs. revert num. induction Hs as [|c s Hc Hs IH]; intros num.
  - exists 0. cbn. split; [f_equal|]; lia.
  - destruct (alphabet_index_digit c Hc) as (i & Hi & Hir).
    destruct (IH (num * 58 + i)) as (v & Hv & Hvr).
    exists (i * 58 ^ Z.of_nat (length s) + v).
    cbn [decode_loop length]. rewrite Hi. cbn [bind]. rewrite Hv.
    rewrite Nat2Z.inj_succ, Z.pow_succ_r by lia.
    split; [f_equal; ring|]. nia.
Qed.

Lemma pow58_le (a b : nat) : (a <= b)%nat -> 58 ^ Z.of_nat a <= 58 ^ Z.of_nat b.
Proof. intros Hab. apply Z.pow_le_mono_r; lia. Qed.

(** X4. Every string of at most 111 Base58 characters decodes, to 82
    bytes; a string of 113 or more Base58 characters that does not start
    with ['1'] never does: its number needs more than 82 bytes and
    [to_bytes] raises [OverflowError]. *)
Theorem decode_base58_by_length (s : str) :
  Forall (fun c => in_alphabet c = true) s ->
  ((length s <= 111)%nat ->
   exists d, decode_base58 s = OK d /\ length d = 82%nat) /\
  (forall c rest, s = c :: rest -> c <> "1"%char ->
     (112 <= length rest)%nat -> decode_base58 s = Err OverflowError).
Proof.
  intros Hs. split.
  - intros Hlen. destruct (decode_loop_value s 0 Hs) as (v & Hv & Hvr).
    unfold decode_base58. rewrite Hv. cbn [bind].
    pose proof (pow58_le _ _ Hlen) as Hpow.
    assert (H58 : 58 ^ Z.of_nat 111 <= 256 ^ Z.of_nat 82)
      by (vm_compute; discriminate).
    rewrite int_to_bytes_ok by lia.
    eexists. split; [reflexivity|apply be_digits_length].
  - intros c rest -> Hc Hlen.
    inversion Hs as [|c' s' Hin Hrest]; subst.
    destruct (alphabet_index_digit c Hin) as (i & Hi & Hir).
    destruct (decode_loop_value rest (0 * 58 + i) Hrest) as (v & Hv & Hvr).
    unfold decode_base58. cbn [decode_loop]. rewrite Hi. cbn [bind].
    rewrite Hv. cbn [bind].
    assert (Hi1 : 1 <= i).
    { destruct (Z.eq_dec i 0) as [->|]; [|lia]. exfalso. apply Hc.
      unfold alphabet_index in Hi.
      destruct (str_index c BASE58_ALPHABET) as [j|] eqn:Hj; [|discriminate].
      assert (j = 0%nat) by (injection Hi; lia). subst j.
      cbn [str_index BASE58_ALPHABET list_ascii_of_string] in Hj.
      destruct (Ascii.eqb_spec "1"%char c) as [<-|]; [reflexivity|].
      repeat match type of Hj with
      | context [if ?b then _ else _] => destruct b; try discriminate
      | context [match ?o with Some _ => _ | None => _ end] =>
          destruct o; try discriminate
      end. }
    pose proof (pow58_le _ _ Hlen) as Hpow.
    assert (H58 : 256 ^ Z.of_nat 82 <= 58 ^ Z.of_nat 112)
      by (vm_compute; discriminate).
    unfold int_to_bytes.
    destruct (Z.ltb_spec ((0 * 58 + i) * 58 ^ Z.of_nat (length rest) + v) 0);
      [reflexivity|].
    destruct (Z.leb_spec (256 ^ Z.of_nat 82)
                ((0 * 58 + i) * 58 ^ Z.of_nat (length rest) + v));
      [reflexivity|]. nia.
Qed.

Lemma int_from_bytes_zero_cons (data : bytes) :
  int_from_bytes (x00 :: data) = int_from_bytes data.
Proof. rewrite int_from_bytes_cons. change (byte_to_Z x00) with 0. lia. Qed.

(** X5. Each zero byte in front of the data becomes one ['1'] in front
    of the encoding: [encode_base58] keeps the count of leading zero
    bytes, which the number alone would lose. *)
Theorem encode_base58_leading_zeros (n : nat) (data : bytes) :
  encode_base58 (repeat x00 n ++ data)
  = repeat "1"%char n ++ encode_base58 data.
Proof.
  induction n as [|n IH]; [reflexivity|].
  cbn [repeat app]. rewrite <- IH.
  unfold encode_base58. cbn [count_leading_zeros].
  change (byte_to_Z x00 =? 0) with true. cbv iota.
  now rewrite int_from_bytes_zero_cons.
Qed.

Lemma alphabet_at_in (m : Z) : 0 <= m < 58 -> in_alphabet (alphabet_at m) = true.
Proof.
  intros Hm. unfold in_alphabet.
  pose proof (alphabet_index_at m Hm) as Hi. unfold alphabet_index in Hi.
  destruct (str_index (alphabet_at m) BASE58_ALPHABET); [reflexivity|].
  discriminate.
Qed.

Lemma encode_loop_alphabet (fuel : nat) (num : Z) (acc : str) :
  Forall (fun c => in_alphabet c = true) acc ->
  Forall (fun c => in_alphabet c = true) (encode_loop fuel num acc).
Proof.
  revert num acc. induction fuel as [|fuel IH]; intros num acc Hacc;
    [assumption|].
  cbn [encode_loop]. destruct (Z.ltb_spec 0 num); [|assumption].
  apply IH. constructor; [|assumption].
  apply alphabet_at_in. apply Z.mod_pos_bound. lia.
Qed.

(** X6. [encode_base58] writes characters of the Base58 alphabet only,
    so that decoding one of its results never raises the [ValueError] of
    a foreign character. *)
Theorem encode_base58_alphabet (data : bytes) :
  Forall (fun c => in_alphabet c = true) (encode_base58 data) /\
  decode_base58 (encode_base58 data) <> Err (ValueError "substring not found").
Proof.
  split.
  - unfold encode_base58. apply Forall_app. split.
    + apply Forall_forall. intros c Hc. apply repeat_spec in Hc. now subst c.
    + apply encode_loop_alphabet. constructor.
  - rewrite decode_encode_base58. unfold int_to_bytes.
    destruct (_ <? 0); [discriminate|].
    destruct (_ <=? _); discriminate.
Qed.

Lemma alphabet_at_not_one_all :
  forallb (fun i => negb (Ascii.eqb (alphabet_at (Z.of_nat i)) "1"%char))
          (seq 1 57) = true.
Proof. vm_compute. reflexivity. Qed.

Lemma alphabet_at_not_one (m : Z) :
  1 <= m < 58 -> Ascii.eqb (alphabet_at m) "1"%char = false.
Proof.
  intros Hm. pose proof alphabet_at_not_one_all as Hall.
  rewrite forallb_forall in Hall. specialize (Hall (Z.to_nat m)).
  rewrite Z2Nat.id in Hall by lia. apply negb_true_iff, Hall, in_seq. lia.
Qed.

(** The digits of a positive number start with a non-zero digit: the
    string is not empty and its first character is not ['1']. *)
Lemma encode_loop_head (fuel : nat) (num : Z) :
  0 < num < 2 ^ Z.of_nat fuel ->
  exists c rest, encode_loop fuel num [] = c :: rest /\
                 Ascii.eqb c "1"%char = false.
Proof.
  revert num. induction fuel as [|fuel IH]; intros num Hn.
  - cbn in Hn. lia.
  - cbn [encode_loop]. destruct (Z.ltb_spec 0 num); [|lia].
    rewrite encode_loop_acc.
    destruct (Z.eq_dec (num / 58) 0) as [Hq|Hq].
    + rewrite Hq. exists (alphabet_at (num mod 58)), [].
      split; [destruct fuel; reflexivity|].
      apply alphabet_at_not_one.
      pose proof (Z.div_mod num 58). pose proof (Z.mod_pos_bound num 58). lia.
    + pose proof (div58_lt_pow2 num fuel ltac:(lia)) as Hd.
      destruct (IH (num / 58) ltac:(lia)) as (c & rest & -> & Hc).
      exists c, (rest ++ [alphabet_at (num mod 58)]). split; [reflexivity|].
      exact Hc.
Qed.

Lemma count_leading_ones_repeat (n : nat) (s : str) :
  count_leading_ones (repeat "1"%char n ++ s)
  = (n + count_leading_ones s)%nat.
Proof. induction n as [|n IH]; [reflexivity|]. cbn. now rewrite IH. Qed.

Lemma encode_base58_count (data : bytes) :
  count_leading_ones (encode_base58 data) = count_leading_zeros data.
Proof.
  unfold encode_base58. rewrite count_leading_ones_repeat.
  pose proof (int_from_bytes_range data) as [Hlo _].
  destruct (Z.eq_dec (int_from_bytes data) 0) as [->|Hnz].
  - cbn. lia.
  - destruct (encode_loop_head (encode_fuel (int_from_bytes data))
                (int_from_bytes data)) as (c & rest & -> & Hc).
    { pose proof (encode_fuel_enough _ Hlo). lia. }
    cbn [count_leading_ones]. rewrite Hc. lia.
Qed.

Lemma encode_base58_value (data : bytes) :
  decode_loop 0 (encode_base58 data) = OK (int_from_bytes data).
Proof.
  unfold encode_base58. rewrite decode_loop_ones. apply decode_encode_loop.
  apply encode_fuel_enough, int_from_bytes_range.
Qed.

(** A byte string is its leading zeros and a rest that has none. *)
Lemma leading_zeros_split (data : bytes) :
  exists rest,
    data = repeat x00 (count_leading_zeros data) ++ rest /\
    count_leading_zeros rest = 0%nat /\
    int_from_bytes rest = int_from_bytes data.
Proof.
  induction data as [|b data (rest & Hd & Hr & Hi)].
  - exists []. repeat split.
  - cbn [count_leading_zeros].
    destruct (Z.eqb_spec (byte_to_Z b) 0) as [Hb|Hb].
    + exists rest. assert (b = x00) as ->.
      { rewrite <- (byte_of_to_Z b), Hb. reflexivity. }
      cbn [repeat app]. rewrite <- Hd, int_from_bytes_zero_cons. auto.
    + exists (b :: data). cbn [repeat app count_leading_zeros].
      destruct (Z.eqb_spec (byte_to_Z b) 0); [contradiction|]. auto.
Qed.

Lemma no_leading_zero_bound (rest : bytes) :
  count_leading_zeros rest = 0%nat -> rest <> [] ->
  256 ^ Z.of_nat (length rest - 1) <= int_from_bytes rest.
Proof.
  destruct rest as [|b rest]; [congruence|]. intros Hc _.
  cbn [count_leading_zeros] in Hc.
  destruct (Z.eqb_spec (byte_to_Z b) 0) as [|Hb]; [discriminate|].
  rewrite int_from_bytes_cons. cbn [length].
  replace (S (length rest) - 1)%nat with (length rest) by lia.
  pose proof (byte_to_Z_range b). pose proof (int_from_bytes_range rest).
  nia.
Qed.

Lemma no_leading_zero_unique (r1 r2 : bytes) :
  count_leading_zeros r1 = 0%nat -> count_leading_zeros r2 = 0%nat ->
  int_from_bytes r1 = int_from_bytes r2 -> r1 = r2.
Proof.
  intros H1 H2 Hi.
  assert (Hlen : forall a b : bytes,
    count_leading_zeros b = 0%nat -> int_from_bytes a = int_from_bytes b ->
    (length b <= length a)%nat).
  { intros a b Hb Hab.
    destruct (Nat.le_gt_cases (length b) (length a)) as [|Hlt];
      [assumption|exfalso].
    assert (Hne : b <> []) by (intros ->; cbn in Hlt; lia).
    pose proof (no_leading_zero_bound b Hb Hne).
    pose proof (int_from_bytes_range a).
    pose proof (pow256_le (length a) (length b - 1) ltac:(lia)). lia. }
  assert (Hl : length r1 = length r2).
  { apply Nat.le_antisymm; [apply Hlen|apply Hlen]; auto. }
  rewrite <- (be_digits_int_from_bytes r1), <- (be_digits_int_from_bytes r2).
  now rewrite Hl, Hi.
Qed.

(** X7. [encode_base58] is injective: two byte strings with the same
    encoding are the same byte string. *)
Theorem encode_base58_injective (a b : bytes) :
  encode_base58 a = encode_base58 b -> a = b.
Proof.
  intros Heq.
  assert (Hc : count_leading_zeros a = count_leading_zeros b)
    by now rewrite <- !encode_base58_count, Heq.
  assert (Hv : int_from_bytes a = int_from_bytes b).
  { pose proof (encode_base58_value a) as Ha. rewrite Heq in Ha.
    rewrite encode_base58_value in Ha. congruence. }
  destruct (leading_zeros_split a) as (ra & Ha & Hra & Hia).
  destruct (leading_zeros_split b) as (rb & Hb & Hrb & Hib).
  rewrite Ha, Hb, Hc. f_equal.
  apply no_leading_zero_unique; congruence.
Qed.

(** ** Derivation *)

Lemma int_to_bytes_inv (n : Z) (len : nat) (b : bytes) :
  int_to_bytes n len = OK b ->
  0 <= n < 256 ^ Z.of_nat len /\ b = be_digits len n.
Proof.
  unfold int_to_bytes.
  destruct (Z.ltb_spec n 0); [discriminate|].
  destruct (Z.leb_spec (256 ^ Z.of_nat len) n); [discriminate|].
  intros Hb. split; [lia|congruence].
Qed.

Lemma Xkey_init_child_inv (k c : bytes) (p : bool) (d i : Z)
    (pp : option bytes) (x : Xkey) :
  Xkey_init k c p false d i pp = OK x ->
  d <> 0 /\ x = mkXkey k c false p d i pp /\ exists pk, pp = Some pk.
Proof.
  unfold Xkey_init. cbn [negb].
  destruct (Z.eqb_spec d 0); [discriminate|].
  destruct pp as [pk|]; [|discriminate].
  intros Hx. split; [assumption|]. split; [congruence|]. now exists pk.
Qed.

Section DerivationFacts.
Context {H : Hashlib} {E : Ecc}.

(** What a returned child is made of. *)
Lemma derive_child_seed_inv (p : Xkey) (i : Z) (c : Xkey) :
  derive_child_seed p i = OK c ->
  0 <= i < 2 ^ 32 /\
  exists pubkey,
    (if private_key p then get_pubkey_sec (key p) = OK pubkey
     else pubkey = key p /\ i < 2 ^ 31) /\
    let data :=
      if private_key p && (2 ^ 31 <=? i)
      then [x00] ++ key p ++ be_digits 4 i
      else pubkey ++ be_digits 4 i in
    let full_node := hmac_sha512 (chaincode p) data in
    let depth' := if root p then 1 else depth p + 1 in
    depth' <> 0 /\
    c = mkXkey (key c) (skipn 32 full_node) false (private_key p) depth' i
               (Some pubkey) /\
    (if private_key p
     then key c = be_digits 32 ((int_from_bytes (key p)
                                 + int_from_bytes (firstn 32 full_node))
                                mod N_order)
     else exists point,
            S256Point_parse (key p) = Some point /\
            sec (point_add point
                   (rmul (int_from_bytes (firstn 32 full_node)) G))
            = Some (key c)).
Proof.
  unfold derive_child_seed. destruct (private_key p) eqn:Hpriv.
  - destruct (get_pubkey_sec (key p)) as [pubkey|e] eqn:Hpk; [|discriminate].
    cbn [bind andb].
    assert (Hdata :
      (if 2 ^ 31 <=? i
       then bind (int_to_bytes i 4)
              (fun ib => OK (pubkey, [x00] ++ key p ++ ib))
       else bind (int_to_bytes i 4) (fun ib => OK (pubkey, pubkey ++ ib)))
      = bind (int_to_bytes i 4)
          (fun ib => OK (pubkey, if 2 ^ 31 <=? i then [x00] ++ key p ++ ib
                                 else pubkey ++ ib)))
      by (destruct (2 ^ 31 <=? i); reflexivity).
    rewrite Hdata. clear Hdata.
    destruct (int_to_bytes i 4) as [ib|e] eqn:Hib; [|discriminate].
    apply int_to_bytes_inv in Hib as [Hi ->]. cbn [bind].
    destruct (int_to_bytes _ 32) as [k|e] eqn:Hk; [|discriminate].
    apply int_to_bytes_inv in Hk as [_ ->]. cbn [bind].
    intros Hc. apply Xkey_init_child_inv in Hc as (Hd & -> & _).
    change (256 ^ Z.of_nat 4) with (2 ^ 32) in Hi.
    split; [assumption|]. exists pubkey. split; [reflexivity|].
    cbn [key]. destruct (2 ^ 31 <=? i); auto.
  - destruct (Z.leb_spec (2 ^ 31) i) as [|Hi31]; [discriminate|].
    destruct (int_to_bytes i 4) as [ib|e] eqn:Hib; [|discriminate].
    apply int_to_bytes_inv in Hib as [Hi ->]. cbn [bind andb].
    destruct (S256Point_parse (key p)) as [point|] eqn:Hparse;
      [|discriminate].
    cbn [ecc_call bind].
    destruct (sec _) as [k|] eqn:Hsec; [|discriminate].
    cbn [ecc_call bind].
    intros Hc. apply Xkey_init_child_inv in Hc as (Hd & -> & _).
    change (256 ^ Z.of_nat 4) with (2 ^ 32) in Hi.
    split; [assumption|]. exists (key p). split; [auto|].
    cbn [key]. repeat split; try assumption. now exists point.
Qed.

(** X8. Every child [derive_child_seed] returns is a non-root node of
    its parent's variant, at the index asked for, which fits in four
    bytes (and is below [2^31] under a public parent); its depth is 1
    under a root and the parent's depth plus one otherwise, never 0; its
    parent key is the parent's public key. *)
Theorem derive_child_bookkeeping (p : Xkey) (i : Z) (c : Xkey) :
  derive_child_seed p i = OK c ->
  root c = false /\ private_key c = private_key p /\
  index c = i /\ 0 <= i < 2 ^ 32 /\ (private_key p = false -> i < 2 ^ 31) /\
  depth c = (if root p then 1 else depth p + 1) /\ depth c <> 0 /\
  exists pubkey,
    parent_pubkey c = Some pubkey /\
    if private_key p then get_pubkey_sec (key p) = OK pubkey
    else pubkey = key p.
Proof.
  intros Hc. apply derive_child_seed_inv in Hc as (Hi & pubkey & Hpk & Hrest).
  cbv zeta in Hrest. destruct Hrest as (Hd & -> & _).
  cbn [root private_key index depth parent_pubkey].
  repeat split; try assumption; try lia.
  - intros Hpub. rewrite Hpub in Hpk. tauto.
  - exists pubkey. split; [reflexivity|].
    destruct (private_key p); tauto.
Qed.

(** X9. An index that does not fit in four bytes, negative or [2^32]
    and above, never yields a child: [derive_child_seed] raises on every
    node. *)
Theorem derive_child_index_range (p : Xkey) (i : Z) :
  i < 0 \/ 2 ^ 32 <= i -> is_err (derive_child_seed p i) = true.
Proof.
  intros Hi. destruct (derive_child_seed p i) as [c|e] eqn:Hc; [|reflexivity].
  apply derive_child_seed_inv in Hc as (Hr & _). lia.
Qed.

Lemma derive_pubkey_inv (p q : Xkey) :
  derive_pubkey p = OK q ->
  private_key p = true /\
  get_pubkey_sec (key p) = OK (key q) /\
  q = mkXkey (key q) (chaincode p) (root p) false (depth p) (index p)
             (parent_pubkey p).
Proof.
  unfold derive_pubkey.
  destruct (private_key p) eqn:Hpriv; [|discriminate]. cbn [negb].
  destruct (get_pubkey_sec (key p)) as [k|e]; [|discriminate]. cbn [bind].
  unfold Xkey_init.
  assert (Hq : forall q0, OK (mkXkey k (chaincode p) (root p) false (depth p)
                                (index p) (parent_pubkey p)) = OK q0 ->
               q0 = mkXkey k (chaincode p) (root p) false (depth p) (index p)
                           (parent_pubkey p)) by congruence.
  intros Hres.
  assert (q = mkXkey k (chaincode p) (root p) false (depth p) (index p)
                     (parent_pubkey p)) as ->.
  { destruct (negb (root p)); [|now apply Hq].
    destruct (depth p =? 0); [discriminate|].
    destruct (parent_pubkey p); [now apply Hq|discriminate]. }
  repeat split.
Qed.

(** X10. What [derive_pubkey] returns is the node it was given with the
    key replaced by the public key and the variant set to public; chain
    code, root flag, depth, index and parent key are kept. Such a result
    cannot be projected again: [derive_pubkey] raises [AssertionError] on
    it, as on every public node. *)
Theorem derive_pubkey_projection (p q : Xkey) :
  derive_pubkey p = OK q ->
  private_key p = true /\
  get_pubkey_sec (key p) = OK (key q) /\
  q = mkXkey (key q) (chaincode p) (root p) false (depth p) (index p)
             (parent_pubkey p) /\
  derive_pubkey q = Err AssertionError.
Proof.
  intros Hq. destruct (derive_pubkey_inv p q Hq) as (Hp & Hk & Heq).
  repeat split; try assumption. rewrite Heq. reflexivity.
Qed.

(** X11. Hardened isolation: once a node is projected to public, none
    of its hardened children can be derived from the projection;
    [derive_child_seed] raises "Cannot use hardened index!" at every
    index from [2^31] on. *)
Theorem hardened_isolation (p q : Xkey) (i : Z) :
  derive_pubkey p = OK q -> 2 ^ 31 <= i ->
  derive_child_seed q i = Err (ValueError "Cannot use hardened index!").
Proof.
  intros Hq Hi. apply derive_pubkey_inv in Hq as (_ & _ & ->).
  unfold derive_child_seed. cbn [private_key].
  destruct (Z.leb_spec (2 ^ 31) i); [reflexivity|lia].
Qed.

End DerivationFacts.

Section PathFacts.
Context {H : Hashlib} {E : Ecc}.

(** X12. Deriving along a concatenated path is deriving along the first
    part and then, from the node reached, along the second; an exception
    in the first part is the outcome. *)
Theorem derive_path_app (r : Xkey) (a b : list (Z * bool)) :
  derive_path r (a ++ b) = (x <- derive_path r a ;; derive_path x b).
Proof.
  unfold derive_path. rewrite fold_left_app.
  destruct (fold_left _ a (OK r)) as [x|e]; [reflexivity|].
  apply derive_loop_raised.
Qed.

Lemma derive_path_facts (path : list (Z * bool)) (r x : Xkey) :
  derive_path r path = OK x -> path <> [] ->
  root x = false /\ private_key x = private_key r /\
  depth x = derivation_depth r + Z.of_nat (length path) /\
  index x = encode_step (last path (0, false)).
Proof.
  revert r. induction path as [|item rest IH]; intros r Hx Hne;
    [congruence|].
  rewrite derive_path_cons in Hx.
  destruct (derive_child_seed r (encode_step item)) as [c|e] eqn:Hc;
    [|discriminate].
  cbn [bind] in Hx.
  apply derive_child_seed_inv in Hc as (_ & pubkey & _ & Hrest).
  cbv zeta in Hrest. destruct Hrest as (_ & Hceq & _).
  destruct rest as [|item' rest'].
  - cbn in Hx. injection Hx as <-. rewrite Hceq.
    cbn [root private_key depth index length last].
    unfold derivation_depth. repeat split. destruct (root r); lia.
  - destruct (IH c Hx ltac:(discriminate)) as (Hr & Hp & Hd & Hi).
    rewrite Hceq in Hp, Hd. cbn [private_key] in Hp.
    unfold derivation_depth in *. cbn [root depth] in Hd.
    repeat split; try assumption.
    rewrite Hd. cbn [length]. destruct (root r); lia.
Qed.

(** X13. The node a non-empty path leads to is a non-root node of the
    variant of the node it starts from; its depth is the number of steps
    when the start is a root, and the start's depth plus the number of
    steps otherwise; its index is that of the last step, with [2^31]
    added when the step is hardened. *)
Theorem derive_path_bookkeeping (path : list (Z * bool)) (r x : Xkey) :
  derive_path r path = OK x -> path <> [] ->
  root x = false /\ private_key x = private_key r /\
  depth x = (if root r then 0 else depth r) + Z.of_nat (length path) /\
  index x = (let (i, hardened) := last path (0, false) in
             if hardened then i + 2 ^ 31 else i).
Proof.
  intros Hx Hne. destruct (derive_path_facts path r x Hx Hne)
    as (Hr & Hp & Hd & Hi).
  repeat split; try assumption.
  rewrite Hi. unfold encode_step. now destruct (last path (0, false)).
Qed.

(** X14. From a public node, a path with a hardened step (of an index
    that is not negative) leads nowhere: [derive_path] raises, whatever
    steps come before and after. *)
Theorem derive_path_public_hardened (path : list (Z * bool)) (r : Xkey)
    (i : Z) :
  private_key r = false -> In (i, true) path -> 0 <= i ->
  is_err (derive_path r path) = true.
Proof.
  intros Hpub Hin Hi. revert r Hpub.
  induction path as [|item rest IH]; intros r Hpub; [contradiction|].
  rewrite derive_path_cons.
  destruct (derive_child_seed r (encode_step item)) as [c|e] eqn:Hc;
    [|reflexivity].
  cbn [bind]. destruct Hin as [->|Hin].
  - exfalso. unfold derive_child_seed in Hc. rewrite Hpub in Hc.
    cbn [encode_step fst snd] in Hc.
    destruct (Z.leb_spec (2 ^ 31) (i + 2 ^ 31)); [discriminate|lia].
  - apply (IH Hin).
    apply derive_child_seed_inv in Hc as (_ & pubkey & _ & Hrest).
    cbv zeta in Hrest. destruct Hrest as (_ & -> & _). exact Hpub.
Qed.

End PathFacts.

Section Validity.
Context {H : Hashlib} {E : Ecc}.
Hypothesis hmac_len : hmac_sha512_length H.

Lemma chaincode_half_length (k m : bytes) :
  length (skipn 32 (hmac_sha512 k m)) = 32%nat.
Proof. rewrite length_skipn, hmac_len. reflexivity. Qed.




(** X17. [parse_from_seed] returns a node for every seed: a private
    root of depth 0 and index 0 without parent key, whose key and chain
    code are the two 32-byte halves of the HMAC of the seed under the key
    "Bitcoin seed"; the node meets every invariant of the data model. *)
Theorem parse_from_seed_root (seed : bytes) :
  let full_node := hmac_sha512 (list_byte_of_string "Bitcoin seed") seed in
  parse_from_seed seed
  = OK (mkXkey (firstn 32 full_node) (skipn 32 full_node)
               true true 0 0 None) /\
  full_node = firstn 32 full_node ++ skipn 32 full_node /\
  length (firstn 32 full_node) = 32%nat /\
  length (skipn 32 full_node) = 32%nat /\
  valid_node (mkXkey (firstn 32 full_node) (skipn 32 full_node)
                     true true 0 0 None) = true.
Proof.
  intros full_node.
  assert (Hk : length (firstn 32 full_node) = 32%nat)
    by (rewrite length_firstn; unfold full_node; rewrite hmac_len;
        reflexivity).
  assert (Hc : length (skipn 32 full_node) = 32%nat)
    by apply chaincode_half_length.
  split; [reflexivity|]. split; [symmetry; apply firstn_skipn|].
  split; [exact Hk|]. split; [exact Hc|].
  unfold valid_node, well_formed.
  cbn [root private_key depth index parent_pubkey key chaincode is_some].
  rewrite Hk, Hc. reflexivity.
Qed.

End Validity.

(** ** What [serialize] raises and what its strings look like *)

Lemma encode_loop_split (k fuel : nat) (num : Z) :
  0 <= num < 2 ^ Z.of_nat fuel -> 58 ^ Z.of_nat k <= num ->
  exists low : str,
    length low = k /\
    encode_loop fuel num []
    = encode_loop fuel (num / 58 ^ Z.of_nat k) [] ++ low.
Proof.
  revert num. induction k as [|k IH]; intros num Hn Hk.
  - exists []. split; [reflexivity|].
    change (58 ^ Z.of_nat 0) with 1. now rewrite Z.div_1_r, app_nil_r.
  - rewrite Nat2Z.inj_succ, Z.pow_succ_r in Hk by lia.
    assert (Hp : 0 < 58 ^ Z.of_nat k) by (apply Z.pow_pos_nonneg; lia).
    assert (Hq : 58 ^ Z.of_nat k <= num / 58)
      by (apply Z.div_le_lower_bound; lia).
    assert (Hq' : 0 <= num / 58 < 2 ^ Z.of_nat fuel).
    { split; [lia|]. apply Z.div_lt_upper_bound; lia. }
    destruct (IH (num / 58) Hq' Hq) as (low & Hlen & Heq).
    exists (low ++ [alphabet_at (num mod 58)]). split.
    + rewrite length_app, Hlen. cbn. lia.
    + rewrite encode_loop_unfold by assumption.
      destruct (Z.ltb_spec 0 num); [|lia].
      rewrite encode_loop_acc, Heq, <- app_assoc.
      rewrite Nat2Z.inj_succ, Z.pow_succ_r, Z.div_div by lia.
      reflexivity.
Qed.

(** The four characters a version prefix turns into, 78 bytes later. *)
Lemma encode_base58_versioned (p : bool) (tail : bytes) :
  length tail = 78%nat ->
  exists low : str,
    length low = 107%nat /\
    encode_base58 ((if p then XPRV_VERSION else XPUB_VERSION) ++ tail)
    = list_ascii_of_string (if p then "xprv" else "xpub") ++ low.
Proof.
  intros Hlen. unfold encode_base58.
  replace (count_leading_zeros
             ((if p then XPRV_VERSION else XPUB_VERSION) ++ tail))
    with O by (destruct p; reflexivity).
  cbn [repeat app].
  set (num := int_from_bytes
                ((if p then XPRV_VERSION else XPUB_VERSION) ++ tail)).
  set (v := if p then 10892163 else 10892318).
  pose proof (int_from_bytes_range tail) as Ht. rewrite Hlen in Ht.
  assert (Hnum : v * 58 ^ 107 <= num < (v + 1) * 58 ^ 107).
  { subst num v. rewrite int_from_bytes_app, Hlen.
    change (256 ^ Z.of_nat 78) with (256 ^ 78) in *.
    set (t := int_from_bytes tail) in *. clearbody t.
    destruct p;
      [change (int_from_bytes XPRV_VERSION) with 76066276
      |change (int_from_bytes XPUB_VERSION) with 76067358];
      split.
    - apply Z.le_trans with (76066276 * 256 ^ 78);
        [apply Z.leb_le; vm_compute; reflexivity|lia].
    - apply Z.lt_le_trans with (76066277 * 256 ^ 78);
        [lia|apply Z.leb_le; vm_compute; reflexivity].
    - apply Z.le_trans with (76067358 * 256 ^ 78);
        [apply Z.leb_le; vm_compute; reflexivity|lia].
    - apply Z.lt_le_trans with (76067359 * 256 ^ 78);
        [lia|apply Z.leb_le; vm_compute; reflexivity]. }
  assert (Hv : 0 < v) by (subst v; destruct p; lia).
  assert (H58 : 0 < 58 ^ 107) by (apply Z.pow_pos_nonneg; lia).
  assert (Hpos : 0 <= num) by nia.
  destruct (encode_loop_split 107 (encode_fuel num) num
              (encode_fuel_enough num Hpos)) as (low & Hl & Heq).
  { change (Z.of_nat 107) with 107. nia. }
  exists low. split; [assumption|]. rewrite Heq. f_equal.
  change (Z.of_nat 107) with 107.
  replace (num / 58 ^ 107) with v.
  2:{ apply Z.div_unique with (num - v * 58 ^ 107); lia. }
  rewrite (encode_loop_fuel_irrelevant _ (encode_fuel v)).
  - subst v. destruct p; vm_compute; reflexivity.
  - split; [lia|]. apply Z.lt_le_trans with (2 ^ Z.of_nat (encode_fuel v)).
    + apply encode_fuel_enough. lia.
    + apply Z.pow_le_mono_r; [lia|]. apply Nat2Z.inj_le.
      unfold encode_fuel. apply le_n_S, Z2Nat.inj_le;
        try apply Z.log2_nonneg.
      apply Z.log2_le_mono. nia.
  - apply encode_fuel_enough. lia.
Qed.

(** The checks [serialize] makes on a node that is not a root. *)
Lemma serialize_child_inv {H : Hashlib} (x : Xkey) (s : str) :
  root x = false -> serialize x = OK s ->
  0 <= depth x < 256 /\ 0 <= index x < 2 ^ 32 /\
  exists pk, parent_pubkey x = Some pk.
Proof.
  intros Hr Hs. unfold serialize, bytes_of_int, int_to_bytes in Hs.
  rewrite Hr in Hs.
  destruct (Z.leb_spec 0 (depth x)); [|destruct (private_key x); discriminate].
  destruct (Z.ltb_spec (depth x) 256);
    [|destruct (private_key x); discriminate].
  destruct (parent_pubkey x) as [pk|];
    [|destruct (private_key x); discriminate].
  cbn [andb bind hash160] in Hs.
  destruct (Z.ltb_spec (index x) 0); [destruct (private_key x); discriminate|].
  change (256 ^ Z.of_nat 4) with (2 ^ 32) in Hs.
  destruct (Z.leb_spec (2 ^ 32) (index x));
    [destruct (private_key x); discriminate|].
  repeat split; try lia. now exists pk.
Qed.

(** X18. On a node that is not a root [serialize] raises, in this order:
    [ValueError] when the depth is not a byte value, [TypeError] when no
    parent key is stored, [OverflowError] when the index does not fit in
    four bytes; in every other case, and on every root, it returns a
    string. *)
Theorem serialize_errors {H : Hashlib} (x : Xkey) :
  (root x = true -> is_err (serialize x) = false) /\
  (root x = false ->
   (depth x < 0 \/ 256 <= depth x ->
    serialize x = Err (ValueError "bytes must be in range(0, 256)")) /\
   (0 <= depth x < 256 -> parent_pubkey x = None ->
    serialize x = Err TypeError) /\
   (0 <= depth x < 256 -> parent_pubkey x <> None ->
    index x < 0 \/ 2 ^ 32 <= index x ->
    serialize x = Err OverflowError) /\
   (0 <= depth x < 256 -> parent_pubkey x <> None ->
    0 <= index x < 2 ^ 32 -> is_err (serialize x) = false)).
Proof.
  split.
  - intros Hr. now rewrite serialize_root.
  - intros Hr. unfold serialize, bytes_of_int, int_to_bytes. rewrite Hr.
    change (256 ^ Z.of_nat 4) with (2 ^ 32).
    split; [|split; [|split]].
    + intros Hd.
      destruct (Z.leb_spec 0 (depth x)), (Z.ltb_spec (depth x) 256);
        try lia; now destruct (private_key x).
    + intros Hd Hpp. rewrite Hpp.
      destruct (Z.leb_spec 0 (depth x)), (Z.ltb_spec (depth x) 256);
        try lia; now destruct (private_key x).
    + intros Hd Hpp Hi.
      destruct (parent_pubkey x) as [pk|]; [|contradiction].
      destruct (Z.leb_spec 0 (depth x)), (Z.ltb_spec (depth x) 256);
        try lia.
      cbn [andb bind hash160].
      destruct (Z.ltb_spec (index x) 0); [now destruct (private_key x)|].
      destruct (Z.leb_spec (2 ^ 32) (index x)); [|lia].
      now destruct (private_key x).
    + intros Hd Hpp Hi.
      destruct (parent_pubkey x) as [pk|]; [|contradiction].
      destruct (Z.leb_spec 0 (depth x)), (Z.ltb_spec (depth x) 256);
        try lia.
      cbn [andb bind hash160].
      destruct (Z.ltb_spec (index x) 0); [lia|].
      destruct (Z.leb_spec (2 ^ 32) (index x)); [lia|].
      now destruct (private_key x).
Qed.

Section SerializedShape.
Context {H : Hashlib}.
Hypothesis sha256_len : sha256_length H.
Hypothesis ripemd160_len : ripemd160_length H.

(** The bytes [serialize] encodes: a version and 78 more bytes, the
    checksum included, once the chain code and the key field have their
    lengths. *)
Lemma serialize_bytes (x : Xkey) (s : str) :
  length (chaincode x) = 32%nat -> length (key_field x) = 33%nat ->
  serialize x = OK s ->
  exists tail : bytes,
    length tail = 78%nat /\
    s = encode_base58
          ((if private_key x then XPRV_VERSION else XPUB_VERSION) ++ tail).
Proof.
  intros Hc Hk Hs. destruct (root x) eqn:Hr.
  - rewrite serialize_root in Hs by assumption.
    assert (s = encode_base58_checksum
                  ((if private_key x then XPRV_VERSION else XPUB_VERSION)
                     ++ [x00] ++ repeat x00 4 ++ repeat x00 4
                     ++ chaincode x ++ key_field x)) as -> by congruence.
    unfold encode_base58_checksum. rewrite <- app_assoc.
    eexists. split; [|reflexivity].
    rewrite !length_app, Hc, Hk, length_firstn. unfold hash256.
    rewrite sha256_len. reflexivity.
  - destruct (serialize_child_inv x s Hr Hs) as (Hd & Hi & pk & Hpp).
    rewrite (serialize_child x pk) in Hs by assumption.
    assert (s = encode_base58_checksum
                  ((if private_key x then XPRV_VERSION else XPUB_VERSION)
                     ++ [byte_of_Z (depth x)]
                     ++ firstn 4 (ripemd160_digest (sha256_digest pk))
                     ++ be_digits 4 (index x)
                     ++ chaincode x ++ key_field x)) as -> by congruence.
    unfold encode_base58_checksum. rewrite <- app_assoc.
    eexists. split; [|reflexivity].
    rewrite !length_app, Hc, Hk, !length_firstn, be_digits_length.
    unfold hash256. rewrite sha256_len, ripemd160_len. reflexivity.
Qed.

(** X19. Whenever [serialize] returns and the node has a 32-byte chain
    code and a key that fills the 33-byte key field (32 bytes when
    private, 33 when public), the string has 111 characters and begins
    with "xprv" for a private node, with "xpub" for a public one. *)
Theorem serialize_shape (x : Xkey) (s : str) :
  length (chaincode x) = 32%nat -> length (key_field x) = 33%nat ->
  serialize x = OK s ->
  length s = 111%nat /\
  firstn 4 s
  = list_ascii_of_string (if private_key x then "xprv" else "xpub").
Proof.
  intros Hc Hk Hs.
  destruct (serialize_bytes x s Hc Hk Hs) as (tail & Ht & ->).
  destruct (encode_base58_versioned (private_key x) tail Ht)
    as (low & Hl & ->).
  split.
  - rewrite length_app, Hl. now destruct (private_key x).
  - destruct (private_key x); reflexivity.
Qed.

End SerializedShape.

(** ** What [parse_from_bip32] returns and what it refuses *)

Section ParsingFacts.
Context {H : Hashlib}.

Lemma wire_field_lengths (p : bytes) :
  length p = 78%nat ->
  (exists db, firstn 1 (skipn 4 p) = [db]) /\
  length (wire_fingerprint p) = 4%nat /\
  0 <= wire_index p < 2 ^ 32 /\
  length (wire_chaincode p) = 32%nat /\
  length (wire_key p) = 33%nat.
Proof.
  intros Hp. split; [|split; [|split; [|split]]].
  - assert (Hlen : length (firstn 1 (skipn 4 p)) = 1%nat)
      by (rewrite length_firstn, length_skipn, Hp; reflexivity).
    destruct (firstn 1 (skipn 4 p)) as [|db [|]]; try discriminate.
    now exists db.
  - unfold wire_fingerprint. rewrite length_firstn, length_skipn, Hp.
    reflexivity.
  - unfold wire_index.
    pose proof (int_from_bytes_range (firstn 4 (skipn 9 p))) as Hr.
    rewrite length_firstn, length_skipn, Hp in Hr. exact Hr.
  - unfold wire_chaincode. rewrite length_firstn, length_skipn, Hp.
    reflexivity.
  - unfold wire_key. rewrite length_firstn, length_skipn, Hp. reflexivity.
Qed.

Lemma stripped_key_length (p : bytes) :
  length (wire_key p) = 33%nat ->
  (exists k0, getitem0 (wire_key p) = OK k0 /\
              (if k0 =? 0 then skipn 1 (wire_key p) else wire_key p)
              = stripped_key p) /\
  (length (stripped_key p) = 32%nat \/ length (stripped_key p) = 33%nat).
Proof.
  intros Hk. unfold stripped_key.
  destruct (wire_key p) as [|b rest]; [discriminate|].
  split.
  - exists (byte_to_Z b). split; [reflexivity|].
    now destruct (byte_to_Z b =? 0).
  - destruct (byte_to_Z b =? 0); [left|right]; cbn in *; lia.
Qed.

(** Past the checksum and the version: the rest of [parse_from_bip32] on
    the fields of the payload. *)
Lemma parse_checked (s : str) (d : bytes) (priv : bool) (pp : option bytes) :
  decode_base58 s = OK d ->
  checksum_ok d = true ->
  known_version (wire_payload d) = Some priv ->
  exists dep,
    wire_depth (wire_payload d) = OK dep /\ 0 <= dep < 256 /\
    parse_from_bip32 s pp
    = (root <-
         (if root_marked (wire_payload d) then OK true
          else
            h <- hash160 pp ;;
            if negb (bytes_eqb (firstn 4 h)
                               (wire_fingerprint (wire_payload d)))
            then Err (ValueError "Fingerprint mismatch!")
            else OK false) ;;
       Xkey_init (stripped_key (wire_payload d))
                 (wire_chaincode (wire_payload d)) priv root dep
                 (wire_index (wire_payload d)) pp).
Proof.
  intros Hd Hck Hver.
  destruct (wire_lengths s d Hd) as (_ & H78 & _).
  destruct (wire_field_lengths _ H78) as ((db & Hdb) & _ & _ & _ & Hk).
  destruct (stripped_key_length _ Hk) as ((k0 & Hk0 & Hstrip) & _).
  exists (byte_to_Z db).
  assert (Hdep : wire_depth (wire_payload d) = OK (byte_to_Z db))
    by (unfold wire_depth; now rewrite Hdb).
  split; [assumption|]. split; [apply byte_to_Z_range|].
  rewrite (parse_decoded s d pp Hd), Hck. cbn [negb]. cbv zeta.
  rewrite Hver, Hdep. cbn [bind].
  unfold root_marked. rewrite Hdep.
  match goal with
  | |- bind ?r _ = bind ?r _ => destruct r as [rt|e]; [|reflexivity]
  end.
  cbn [bind]. rewrite Hk0. cbn [bind]. now rewrite Hstrip.
Qed.

(** X20. A payload that is not marked as a root, parsed with a parent
    key: once the checksum and the version have passed, the outcome is
    "Fingerprint mismatch!" when the first four bytes of the parent key's
    HASH160 differ from the fingerprint field, [AssertionError] when they
    agree and the depth byte is 0, and otherwise the child node made of
    the fields, with the supplied key as its parent key. *)
Theorem parse_child_with_parent (s : str) (d pk : bytes) (priv : bool) :
  decode_base58 s = OK d ->
  checksum_ok d = true ->
  known_version (wire_payload d) = Some priv ->
  root_marked (wire_payload d) = false ->
  exists dep,
    wire_depth (wire_payload d) = OK dep /\
    parse_from_bip32 s (Some pk)
    = if negb (bytes_eqb (firstn 4 (ripemd160_digest (sha256_digest pk)))
                         (wire_fingerprint (wire_payload d)))
      then Err (ValueError "Fingerprint mismatch!")
      else if dep =? 0 then Err AssertionError
      else OK (mkXkey (stripped_key (wire_payload d))
                      (wire_chaincode (wire_payload d)) false priv dep
                      (wire_index (wire_payload d)) (Some pk)).
Proof.
  intros Hd Hck Hver Hroot.
  destruct (parse_checked s d priv (Some pk) Hd Hck Hver)
    as (dep & Hdep & _ & Hparse).
  exists dep. split; [assumption|].
  rewrite Hparse, Hroot. cbn [hash160 bind].
  destruct (negb _); [reflexivity|]. cbn [bind].
  unfold Xkey_init. cbn [negb]. reflexivity.
Qed.

(** X21. A string that decodes and carries the right checksum but whose
    first four payload bytes are neither the xprv nor the xpub version is
    refused with "Unsupported BIP32 Key Format", whatever the other
    fields hold and whatever parent key is supplied. *)
Theorem parse_unsupported_version (s : str) (d : bytes) (pp : option bytes) :
  decode_base58 s = OK d ->
  checksum_ok d = true ->
  wire_version (wire_payload d) <> XPRV_VERSION ->
  wire_version (wire_payload d) <> XPUB_VERSION ->
  parse_from_bip32 s pp = Err (ValueError "Unsupported BIP32 Key Format").
Proof.
  intros Hd Hck Hprv Hpub.
  rewrite (parse_decoded s d pp Hd), Hck. cbn [negb]. cbv zeta.
  unfold known_version.
  apply bytes_eqb_neq in Hprv, Hpub. rewrite Hprv, Hpub. reflexivity.
Qed.

(** Every node [parse_from_bip32] returns, traced back to the string. *)
Lemma parse_from_bip32_inv (s : str) (pp : option bytes) (x : Xkey) :
  parse_from_bip32 s pp = OK x ->
  exists d,
    decode_base58 s = OK d /\ checksum_ok d = true /\
    known_version (wire_payload d) = Some (private_key x) /\
    wire_depth (wire_payload d) = OK (depth x) /\
    x = mkXkey (stripped_key (wire_payload d))
               (wire_chaincode (wire_payload d))
               (root_marked (wire_payload d)) (private_key x) (depth x)
               (wire_index (wire_payload d)) pp /\
    (root x = false ->
     depth x <> 0 /\
     exists pk, pp = Some pk /\
       firstn 4 (ripemd160_digest (sha256_digest pk))
       = wire_fingerprint (wire_payload d)).
Proof.
  intros Hx.
  destruct (decode_base58 s) as [d|e] eqn:Hd;
    [|unfold parse_from_bip32 in Hx; rewrite Hd in Hx; discriminate].
  exists d. split; [reflexivity|].
  pose proof Hx as Hx'. rewrite (parse_decoded s d pp Hd) in Hx'.
  destruct (checksum_ok d) eqn:Hck; [|discriminate]. cbv zeta in Hx'.
  destruct (known_version (wire_payload d)) as [priv|] eqn:Hver;
    [|discriminate].
  clear Hx'.
  destruct (parse_checked s d priv pp Hd Hck Hver)
    as (dep & Hdep & _ & Hparse).
  rewrite Hparse in Hx. clear Hparse.
  destruct (root_marked (wire_payload d)) eqn:Hroot.
  - cbn [bind] in Hx. unfold Xkey_init in Hx. cbn [negb] in Hx.
    assert (Hxeq : x = mkXkey (stripped_key (wire_payload d))
                              (wire_chaincode (wire_payload d)) true priv dep
                              (wire_index (wire_payload d)) pp)
      by congruence.
    rewrite Hxeq. cbn [private_key depth root].
    repeat split; try assumption; try reflexivity; discriminate.
  - destruct pp as [pk|]; [|discriminate]. cbn [hash160 bind] in Hx.
    destruct (bytes_eqb _ _) eqn:Hfp; [|discriminate].
    cbn [negb bind] in Hx. unfold Xkey_init in Hx. cbn [negb] in Hx.
    destruct (Z.eqb_spec dep 0) as [|Hnz]; [discriminate|].
    assert (Hxeq : x = mkXkey (stripped_key (wire_payload d))
                              (wire_chaincode (wire_payload d)) false priv dep
                              (wire_index (wire_payload d)) (Some pk))
      by congruence.
    rewrite Hxeq. cbn [private_key depth root].
    repeat split; try assumption; try reflexivity.
    exists pk. split; [reflexivity|]. now apply bytes_eqb_eq.
Qed.

(** X22. Every node [parse_from_bip32] returns has a 32-byte chain code,
    a key of 32 or 33 bytes, a depth below 256, an index below [2^32] and
    the supplied parent key as its [parent_pubkey]; it passes the checks
    of [__init__]; it is a root exactly when its depth and index are 0
    and the fingerprint field is zero, and when it is not, a parent key
    was supplied whose HASH160 begins with the fingerprint field.  The
    key length is not tied to the version: nothing more is checked. *)
Theorem parse_from_bip32_sound (s : str) (pp : option bytes) (x : Xkey) :
  parse_from_bip32 s pp = OK x ->
  length (chaincode x) = 32%nat /\
  (length (key x) = 32%nat \/ length (key x) = 33%nat) /\
  0 <= depth x < 256 /\ 0 <= index x < 2 ^ 32 /\
  parent_pubkey x = pp /\
  well_formed x = true /\
  exists d,
    decode_base58 s = OK d /\
    root x = root_marked (wire_payload d) /\
    (root x = true -> depth x = 0 /\ index x = 0) /\
    (root x = false ->
     exists pk, pp = Some pk /\
       firstn 4 (ripemd160_digest (sha256_digest pk))
       = wire_fingerprint (wire_payload d)).
Proof.
  intros Hx.
  destruct (parse_from_bip32_inv s pp x Hx)
    as (d & Hd & Hck & Hver & Hdep & Hxeq & Hchild).
  destruct (wire_lengths s d Hd) as (_ & H78 & _).
  destruct (wire_field_lengths _ H78) as ((db & Hdb) & _ & Hi & Hc & Hk).
  destruct (stripped_key_length _ Hk) as (_ & Hkl).
  assert (Hrange : 0 <= depth x < 256).
  { unfold wire_depth in Hdep. rewrite Hdb in Hdep. cbn in Hdep.
    assert (depth x = byte_to_Z db) as -> by congruence.
    apply byte_to_Z_range. }
  assert (Hroot : root x = root_marked (wire_payload d))
    by (rewrite Hxeq at 1; reflexivity).
  assert (Hzero : root x = true -> depth x = 0 /\ index x = 0).
  { rewrite Hroot. unfold root_marked. rewrite Hdep.
    rewrite !andb_true_iff, !Z.eqb_eq. intros [[Hd0 _] Hi0].
    split; [assumption|]. rewrite Hxeq. exact Hi0. }
  split; [rewrite Hxeq; exact Hc|].
  split; [rewrite Hxeq; exact Hkl|].
  split; [assumption|].
  split; [rewrite Hxeq; exact Hi|].
  split; [rewrite Hxeq; reflexivity|].
  split.
  - unfold well_formed. destruct (root x) eqn:Hr.
    + destruct (Z.leb_spec 0 (depth x)); [reflexivity|lia].
    + destruct (Hchild eq_refl) as (Hnz & pk & Hpp & _).
      assert (Hpx : parent_pubkey x = Some pk)
        by (rewrite Hxeq; cbn [parent_pubkey]; assumption).
      rewrite Hpx.
      destruct (Z.leb_spec 0 (depth x)); [|lia].
      destruct (Z.eqb_spec (depth x) 0); [contradiction|reflexivity].
  - exists d. split; [assumption|]. split; [assumption|].
    split; [assumption|].
    intros Hr. destruct (Hchild Hr) as (_ & pk & Hpp & Hfp).
    now exists pk.
Qed.

Hypothesis sha256_len : sha256_length H.
Hypothesis ripemd160_len : ripemd160_length H.

(** The payload of a parsed valid node is what [serialize] writes. *)
Lemma parsed_payload (s : str) (pp : option bytes) (x : Xkey) :
  parse_from_bip32 s pp = OK x -> valid_node x = true ->
  exists d,
    decode_base58 s = OK d /\
    d = wire_payload d ++ firstn 4 (hash256 (wire_payload d)) /\
    serialize x = OK (encode_base58_checksum (wire_payload d)).
Proof.
  intros Hx Hv.
  destruct (parse_from_bip32_inv s pp x Hx)
    as (d & Hd & Hck & Hver & Hdep & Hxeq & Hchild).
  destruct (wire_lengths s d Hd) as (_ & H78 & _ & Hsplit).
  exists d. split; [assumption|].
  split.
  { unfold checksum_ok in Hck. apply bytes_eqb_eq in Hck.
    now rewrite <- Hck. }
  set (p := wire_payload d) in *.
  destruct (wire_field_lengths p H78) as ((db & Hdb) & HF & Hi & Hc & Hk).
  (* the payload, field by field *)
  assert (Hp : p = wire_version p ++ [db] ++ wire_fingerprint p
                   ++ firstn 4 (skipn 9 p) ++ wire_chaincode p ++ wire_key p).
  { unfold wire_version, wire_fingerprint, wire_chaincode, wire_key.
    rewrite <- Hdb.
    rewrite <- (firstn_skipn 4 p) at 1. f_equal.
    rewrite <- (firstn_skipn 1 (skipn 4 p)) at 1. f_equal.
    rewrite skipn_skipn. cbn [Nat.add].
    rewrite <- (firstn_skipn 4 (skipn 5 p)) at 1. f_equal.
    rewrite skipn_skipn. cbn [Nat.add].
    rewrite <- (firstn_skipn 4 (skipn 9 p)) at 1. f_equal.
    rewrite skipn_skipn. cbn [Nat.add].
    rewrite <- (firstn_skipn 32 (skipn 13 p)) at 1. f_equal.
    rewrite skipn_skipn. cbn [Nat.add].
    symmetry. apply firstn_all2. rewrite length_skipn, H78. cbn. lia. }
  assert (Hversion : wire_version p
                     = if private_key x then XPRV_VERSION else XPUB_VERSION).
  { unfold known_version in Hver.
    destruct (bytes_eqb (wire_version p) XPRV_VERSION) eqn:H1.
    - apply bytes_eqb_eq in H1.
      assert (private_key x = true) as -> by congruence. exact H1.
    - destruct (bytes_eqb (wire_version p) XPUB_VERSION) eqn:H2;
        [|discriminate].
      apply bytes_eqb_eq in H2.
      assert (private_key x = false) as -> by congruence. exact H2. }
  assert (Hdb' : depth x = byte_to_Z db).
  { unfold wire_depth in Hdep. rewrite Hdb in Hdep. cbn in Hdep.
    congruence. }
  assert (Hkey : key x = stripped_key p) by (rewrite Hxeq; reflexivity).
  assert (Hcc : chaincode x = wire_chaincode p)
    by (rewrite Hxeq; reflexivity).
  assert (Hidx : index x = wire_index p) by (rewrite Hxeq; reflexivity).
  assert (Hroot : root x = root_marked p) by (rewrite Hxeq at 1; reflexivity).
  assert (Hppx : parent_pubkey x = pp) by (rewrite Hxeq; reflexivity).
  (* the key field is the one that was read *)
  assert (Hfield : key_field x = wire_key p).
  { pose proof (valid_node_spec x Hv) as (_ & Hkx & _).
    unfold key_field. rewrite Hkey in *. unfold stripped_key in *.
    destruct (wire_key p) as [|b rest] eqn:Hwk; [discriminate|].
    cbn [length] in Hk.
    destruct (Z.eqb_spec (byte_to_Z b) 0) as [Hb|Hb].
    - destruct (private_key x).
      + replace b with x00; [reflexivity|].
        rewrite <- (byte_of_to_Z b), Hb. reflexivity.
      + apply sec_compressed_spec in Hkx as [Hlen _]. lia.
    - destruct (private_key x); [cbn [length] in Hkx; lia|reflexivity]. }
  assert (Hindex : be_digits 4 (index x) = firstn 4 (skipn 9 p)).
  { rewrite Hidx. unfold wire_index.
    replace 4%nat with (length (firstn 4 (skipn 9 p))) at 1
      by (rewrite length_firstn, length_skipn, H78; reflexivity).
    apply be_digits_int_from_bytes. }
  destruct (root x) eqn:Hr.
  - rewrite serialize_root by assumption. do 2 f_equal.
    rewrite Hp at 1. rewrite Hversion, Hcc, Hfield.
    symmetry in Hroot. unfold root_marked in Hroot. rewrite Hdep in Hroot.
    rewrite !andb_true_iff, !Z.eqb_eq, bytes_eqb_eq in Hroot.
    destruct Hroot as [[Hd0 HF0] Hi0].
    rewrite HF0.
    replace db with x00
      by (rewrite <- (byte_of_to_Z db), <- Hdb', Hd0; reflexivity).
    rewrite <- Hindex, Hidx, Hi0. reflexivity.
  - destruct (Hchild eq_refl) as (Hnz & pk & Hpp & Hfp).
    pose proof (valid_node_spec x Hv) as (_ & _ & _ & Hdr & Hir & _).
    rewrite (serialize_child x pk); try assumption; [|congruence].
    do 2 f_equal.
    rewrite Hp at 1. rewrite Hversion, Hcc, Hfield, Hfp, Hindex, Hdb'.
    rewrite byte_of_to_Z. reflexivity.
Qed.

(** X23. Parsing, then serialising: when [parse_from_bip32] returns a
    valid node, [serialize] of that node returns a string that decodes to
    the same 82 bytes as the string parsed, and parsing it with the same
    parent key gives the node again. *)
Theorem serialize_parse_roundtrip (s : str) (pp : option bytes) (x : Xkey) :
  parse_from_bip32 s pp = OK x -> valid_node x = true ->
  exists s',
    serialize x = OK s' /\
    decode_base58 s' = decode_base58 s /\
    parse_from_bip32 s' pp = OK x.
Proof.
  intros Hx Hv.
  destruct (parsed_payload s pp x Hx Hv) as (d & Hd & Hsplit & Hser).
  destruct (wire_lengths s d Hd) as (_ & H78 & _).
  exists (encode_base58_checksum (wire_payload d)).
  split; [assumption|].
  assert (Hdec : decode_base58 (encode_base58_checksum (wire_payload d))
                 = decode_base58 s).
  { rewrite (decode_encode_checksum sha256_len) by assumption.
    rewrite Hd. f_equal. symmetry. exact Hsplit. }
  split; [assumption|].
  unfold parse_from_bip32 in Hx |- *. rewrite Hdec. exact Hx.
Qed.

End ParsingFacts.

(** ** The printer of derivation paths *)

Lemma derivation_path_string_items (path : list (Z * bool)) (private : bool) :
  derivation_path_string path private
  = (if private then ["m"%char] else ["M"%char])
      ++ concat (map path_item path).
Proof.
  unfold derivation_path_string.
  generalize (if private then ["m"%char] else ["M"%char]) as acc.
  induction path as [|[i h] path IH]; intros acc; cbn [fold_left map concat].
  - now rewrite app_nil_r.
  - rewrite IH. unfold path_item.
    destruct h; rewrite <- ?app_assoc; cbn [app]; rewrite ?app_nil_r;
      reflexivity.
Qed.

Lemma string_of_uint_clean (d : Decimal.uint) :
  Forall (fun c => path_mark c = false)
         (list_ascii_of_string (DecimalString.NilEmpty.string_of_uint d)).
Proof.
  induction d; cbn [DecimalString.NilEmpty.string_of_uint
                    list_ascii_of_string];
    constructor; try reflexivity; assumption.
Qed.

Lemma py_str_clean (n : Z) : Forall (fun c => path_mark c = false) (py_str n).
Proof.
  unfold py_str.
  assert (Hu : forall d,
             Forall (fun c => path_mark c = false)
                    (list_ascii_of_string
                       (DecimalString.NilZero.string_of_uint d))).
  { intros d. destruct d; try apply string_of_uint_clean.
    repeat constructor. }
  destruct (Z.to_int n) as [d|d];
    cbn [DecimalString.NilZero.string_of_int list_ascii_of_string].
  - apply Hu.
  - constructor; [reflexivity|apply Hu].
Qed.

Lemma py_str_injective (a b : Z) : py_str a = py_str b -> a = b.
Proof.
  unfold py_str. intros Heq.
  apply (f_equal string_of_list_ascii) in Heq.
  rewrite !string_of_list_ascii_of_string in Heq.
  assert (Hnn : forall z, Z.to_int z <> Decimal.Pos Decimal.Nil /\
                          Z.to_int z <> Decimal.Neg Decimal.Nil).
  { intros [|p|p]; cbn; split; try discriminate;
      intros [= Hp]; now apply DecimalPos.Unsigned.to_uint_nonnil in Hp. }
  apply (f_equal DecimalString.NilZero.int_of_string) in Heq.
  rewrite !DecimalString.NilZero.isi in Heq by apply Hnn.
  rewrite <- (DecimalZ.of_to a), <- (DecimalZ.of_to b). congruence.
Qed.

(** Two texts free of marks, each followed by nothing or by a mark. *)
Lemma clean_split (u v ta tb : str) :
  Forall (fun c => path_mark c = false) u ->
  Forall (fun c => path_mark c = false) v ->
  (forall c r, ta = c :: r -> path_mark c = true) ->
  (forall c r, tb = c :: r -> path_mark c = true) ->
  u ++ ta = v ++ tb -> u = v /\ ta = tb.
Proof.
  intros Hu. revert v. induction Hu as [|c u Hc Hu IH]; intros v Hv Ha Hb Heq.
  - destruct Hv as [|c' v Hc' Hv]; [now split|].
    cbn [app] in Heq. rewrite (Ha c' (v ++ tb) Heq) in Hc'. discriminate.
  - destruct Hv as [|c' v Hc' Hv].
    + cbn [app] in Heq. symmetry in Heq.
      rewrite (Hb c (u ++ ta) Heq) in Hc. discriminate.
    + cbn [app] in Heq.
      assert (c = c') by congruence. assert (u ++ ta = v ++ tb) by congruence.
      destruct (IH v Hv Ha Hb) as [-> ->]; [assumption|]. subst c'.
      now split.
Qed.

Lemma items_start (path : list (Z * bool)) (c : ascii) (r : str) :
  concat (map path_item path) = c :: r -> c = "/"%char.
Proof.
  destruct path as [|[i h] path]; [discriminate|].
  cbn [map concat path_item app]. congruence.
Qed.

Lemma items_start_marked (path : list (Z * bool)) (c : ascii) (r : str) :
  concat (map path_item path) = c :: r -> path_mark c = true.
Proof. intros Heq. now rewrite (items_start path c r Heq). Qed.

Lemma path_items_injective (a b : list (Z * bool)) :
  concat (map path_item a) = concat (map path_item b) -> a = b.
Proof.
  revert b. induction a as [|[i h] a IH]; intros [|[j g] b];
    cbn [map concat]; try reflexivity.
  - unfold path_item. discriminate.
  - unfold path_item. discriminate.
  - unfold path_item at 1 3. rewrite <- !app_assoc. cbn [app].
    intros Heq.
    assert (Heq' : py_str i ++ (if h then ["'"%char] else [])
                               ++ concat (map path_item a)
                   = py_str j ++ (if g then ["'"%char] else [])
                                ++ concat (map path_item b))
      by congruence.
    apply clean_split in Heq'; try apply py_str_clean.
    + destruct Heq' as [Hij Hrest]. apply py_str_injective in Hij. subst j.
      destruct h, g; cbn [app] in Hrest.
      * f_equal. apply IH. congruence.
      * symmetry in Hrest. apply items_start in Hrest. discriminate.
      * apply items_start in Hrest. discriminate.
      * f_equal. now apply IH.
    + intros c r. destruct h; cbn [app].
      * intros Hc. assert (c = "'"%char) as -> by congruence. reflexivity.
      * apply items_start_marked.
    + intros c r. destruct g; cbn [app].
      * intros Hc. assert (c = "'"%char) as -> by congruence. reflexivity.
      * apply items_start_marked.
Qed.

(** X24. [derivation_path_string] names each path once: two calls that
    return the same string were given the same list of items, hardened
    flags included, and the same [private] flag. *)
Theorem derivation_path_string_injective
    (a b : list (Z * bool)) (p q : bool) :
  derivation_path_string a p = derivation_path_string b q ->
  a = b /\ p = q.
Proof.
  rewrite !derivation_path_string_items. intros Heq.
  assert (Hpq : p = q) by (destruct p, q; try reflexivity; discriminate).
  subst q. split; [|reflexivity].
  apply path_items_injective.
  destruct p; cbn [app] in Heq; congruence.
Qed.

(** X25. The string of a concatenated path is the string of the first
    part followed by the string of the second without its leading letter;
    it starts with "m" for a private path and "M" for a public one and
    holds one "/" for each item. *)
Theorem derivation_path_string_app (a b : list (Z * bool)) (p : bool) :
  derivation_path_string (a ++ b) p
  = derivation_path_string a p ++ skipn 1 (derivation_path_string b p) /\
  firstn 1 (derivation_path_string a p)
  = (if p then ["m"%char] else ["M"%char]) /\
  length (filter (Ascii.eqb "/"%char) (derivation_path_string a p))
  = length a.
Proof.
  rewrite !derivation_path_string_items.
  split; [|split].
  - rewrite map_app, concat_app, <- app_assoc.
    destruct p; reflexivity.
  - destruct p; reflexivity.
  - rewrite filter_app.
    replace (filter (Ascii.eqb "/"%char) (if p then ["m"%char] else ["M"%char]))
      with (@nil ascii) by (destruct p; reflexivity).
    cbn [app]. induction a as [|[i h] a IH]; [reflexivity|].
    cbn [map concat length]. rewrite filter_app, length_app, IH.
    unfold path_item. cbn [app filter]. cbn [Ascii.eqb Bool.eqb].
    rewrite filter_app.
    assert (Hclean : filter (Ascii.eqb "/"%char) (py_str i) = []).
    { pose proof (py_str_clean i) as Hc.
      induction Hc as [|c l Hc _ IHl]; [reflexivity|].
      cbn [filter]. unfold path_mark in Hc.
      apply orb_false_iff in Hc as [Hc _].
      rewrite Ascii.eqb_sym, Hc. exact IHl. }
    rewrite Hclean. destruct h; reflexivity.
Qed.

(** ** Public projection along a path *)

Lemma bind_assoc {A B C} (r : result A) (f : A -> result B)
    (g : B -> result C) :
  (y <- (x <- r ;; f x) ;; g y) = (x <- r ;; (y <- f x ;; g y)).
Proof. destruct r; reflexivity. Qed.

Lemma bind_ext {A B} (r : result A) (f g : A -> result B) :
  (forall a, r = OK a -> f a = g a) -> (x <- r ;; f x) = (x <- r ;; g x).
Proof. destruct r as [a|e]; intros Hfg; [now apply Hfg|reflexivity]. Qed.

Section PublicPaths.
Context {H : Hashlib} {E : Ecc}.
Hypothesis order_ok : order_fits E.
Hypothesis additive : rmul_G_additive E.
Hypothesis parse_sec : parse_sec_inverse E.

(** One step, in both orders. *)
Lemma derive_pubkey_step (p : Xkey) (i : Z) :
  private_key p = true -> well_formed p = true -> i < 2 ^ 31 ->
  (c <- derive_child_seed p i ;; derive_pubkey c)
  = (q <- derive_pubkey p ;; derive_child_seed q i).
Proof.
  intros Hpriv Hwf Hi.
  unfold derive_pubkey at 2. rewrite Hpriv. cbn [negb].
  unfold derive_child_seed at 1. rewrite Hpriv.
  unfold get_pubkey_sec at 1 2.
  destruct (sec (rmul (int_from_bytes (key p)) G)) as [pk|] eqn:Hsec;
    [|reflexivity].
  cbn [ecc_call bind].
  rewrite (Xkey_init_same_position p pk (chaincode p) false Hwf).
  cbn [bind]. unfold derive_child_seed.
  cbn [private_key key chaincode root depth].
  destruct (Z.leb_spec (2 ^ 31) i); [lia|].
  destruct (int_to_bytes i 4) as [ib|e]; [|reflexivity].
  cbn [bind].
  rewrite (parse_sec _ _ Hsec). cbn [ecc_call bind].
  set (l := int_from_bytes (firstn 32 (hmac_sha512 (chaincode p) (pk ++ ib)))).
  set (right := skipn 32 (hmac_sha512 (chaincode p) (pk ++ ib))).
  destruct (scalar_to_bytes (int_from_bytes (key p) + l) order_ok)
    as [-> _].
  cbn [bind].
  rewrite Xkey_init_child by now apply child_depth_nonzero.
  cbn [bind]. unfold derive_pubkey. cbn [private_key negb key].
  rewrite (child_pubkey_sum order_ok additive).
  destruct (sec (point_add (rmul (int_from_bytes (key p)) G) (rmul l G)))
    as [ck|]; [|reflexivity].
  cbn [ecc_call bind chaincode root depth index parent_pubkey].
  reflexivity.
Qed.

(** A child of a well-formed private node is one as well. *)
Lemma private_child_well_formed (p : Xkey) (i : Z) (c : Xkey) :
  private_key p = true -> well_formed p = true ->
  derive_child_seed p i = OK c ->
  private_key c = true /\ well_formed c = true.
Proof.
  intros Hpriv Hwf Hc.
  pose proof (child_depth_nonzero p Hwf) as Hnz.
  apply well_formed_spec in Hwf as [Hd _].
  apply derive_child_seed_inv in Hc as (_ & pubkey & _ & Hrest).
  cbv zeta in Hrest. destruct Hrest as (_ & Hceq & _).
  rewrite Hceq. cbn [private_key]. split; [assumption|].
  unfold well_formed. cbn [depth root parent_pubkey is_some orb andb].
  destruct (Z.leb_spec 0 (if root p then 1 else depth p + 1)) as [|Hneg];
    [|destruct (root p); lia].
  destruct (Z.eqb_spec (if root p then 1 else depth p + 1) 0);
    [contradiction|reflexivity].
Qed.

(** X26. Along a path without hardened items, deriving from a private
    node and projecting the node reached to public has the same outcome
    as projecting first and deriving along the same path from the public
    node: the same node or the same exception. *)
Theorem derive_pubkey_path_commutes (r : Xkey) (path : list (Z * bool)) :
  private_key r = true -> well_formed r = true ->
  Forall (fun item : Z * bool => snd item = false /\ fst item < 2 ^ 31) path ->
  (x <- derive_path r path ;; derive_pubkey x)
  = (q <- derive_pubkey r ;; derive_path q path).
Proof.
  intros Hpriv Hwf Hpath. revert r Hpriv Hwf.
  induction Hpath as [|[i h] path [Hh Hi] _ IH]; intros r Hpriv Hwf.
  - cbn [derive_path fold_left bind].
    now destruct (derive_pubkey r).
  - cbn [fst snd] in Hh, Hi. subst h.
    rewrite derive_path_cons. cbn [encode_step].
    rewrite bind_assoc.
    rewrite (bind_ext _ _ (fun c => q <- derive_pubkey c ;; derive_path q path)).
    2:{ intros c Hc.
        destruct (private_child_well_formed r i c Hpriv Hwf Hc) as [Hp Hw].
        now apply IH. }
    rewrite <- (bind_assoc (derive_child_seed r i) derive_pubkey
                  (fun q => derive_path q path)).
    rewrite (derive_pubkey_step r i Hpriv Hwf Hi), bind_assoc.
    apply bind_ext. intros q _. now rewrite derive_path_cons.
Qed.

End PublicPaths.

(** ** Public nodes stay valid *)

Section PublicValidity.
Context {H : Hashlib} {E : Ecc}.
Hypothesis hmac_len : hmac_sha512_length H.
Hypothesis sec_ok : sec_is_compressed E.

(** X27. [derive_pubkey] keeps the invariants of the data model: the
    public node it returns for a valid private node is valid, so
    [serialize] accepts it and its string parses back. *)
Theorem derive_pubkey_valid (p q : Xkey) :
  valid_node p = true -> derive_pubkey p = OK q -> valid_node q = true.
Proof.
  intros Hv Hq. apply derive_pubkey_inv in Hq as (Hpriv & Hpk & Hqeq).
  unfold get_pubkey_sec in Hpk.
  destruct (sec _) as [k|] eqn:Hsec; [|discriminate].
  cbn [ecc_call] in Hpk. assert (k = key q) as -> by congruence.
  apply sec_ok in Hsec.
  unfold valid_node, well_formed in *. rewrite Hpriv in Hv.
  rewrite Hqeq.
  cbn [root private_key depth index parent_pubkey key chaincode].
  rewrite Hsec. rewrite !andb_true_iff in Hv |- *. tauto.
Qed.


End PublicValidity.

(** ** The further properties at concrete inputs *)

Lemma additive_group_sec_compressed (n : Z) :
  sec_is_compressed (additive_group n).
Proof.
  intros P b. cbn [sec additive_group].
  destruct (P =? 0); [discriminate|]. intros Hb.
  assert (b = (if Z.even P then x02 else x03) :: be_digits 32 P) as ->
    by congruence.
  unfold sec_compressed. cbn [length]. rewrite be_digits_length.
  destruct (Z.even P); reflexivity.
Qed.

(** The path printer on the example of [derive_path]'s documentation. *)
Example derivation_path_string_documented :
  derivation_path_string [(0, true); (1, false); (0, true)] true
  = list_ascii_of_string "m/0'/1/0'" /\
  derivation_path_string (nth 0 PATHS []) false
  = list_ascii_of_string "M/0'/0/5/1'".
Proof. split; reflexivity. Qed.

(** X1 at two bytes: the decoder pads them to 82. *)
Lemma decode_encode_base58_padded_witness :
  decode_base58 (encode_base58 [x01; x02])
  = OK (repeat x00 80 ++ [x01; x02]).
Proof.
  apply (proj1 (decode_encode_base58_padded [x01; x02])).
  apply Nat.leb_le. reflexivity.
Defined.

(** X2 at a string with the digit 0, which Base58 leaves out. *)
Lemma decode_base58_foreign_character_witness :
  in_alphabet "0"%char = false /\
  decode_base58 (list_ascii_of_string "xprv0")
  = Err (ValueError "substring not found").
Proof.
  split; [reflexivity|].
  apply (decode_base58_foreign_character
           (list_ascii_of_string "xprv0") "0"%char); [|reflexivity].
  do 4 right. left. reflexivity.
Defined.

(** X4 at [ROOT_XPRV], of 111 characters. *)
Lemma decode_base58_by_length_witness :
  Forall (fun c => in_alphabet c = true) ROOT_XPRV /\
  exists d, decode_base58 ROOT_XPRV = OK d /\ length d = 82%nat.
Proof.
  assert (Hs : Forall (fun c => in_alphabet c = true) ROOT_XPRV).
  { apply Forall_forall. apply forallb_forall. vm_compute. reflexivity. }
  split; [exact Hs|].
  apply (proj1 (decode_base58_by_length ROOT_XPRV Hs)).
  apply Nat.leb_le. reflexivity.
Defined.

(** X7 at the bytes of [ROOT_XPRV] and at their two parts put together. *)
Lemma encode_base58_injective_witness :
  let d := decoded ROOT_XPRV in
  encode_base58 d = encode_base58 (wire_payload d ++ wire_checksum d) /\
  d = wire_payload d ++ wire_checksum d.
Proof.
  intros d.
  assert (He : encode_base58 d
               = encode_base58 (wire_payload d ++ wire_checksum d))
    by (vm_compute; reflexivity).
  split; [exact He|].
  exact (encode_base58_injective d (wire_payload d ++ wire_checksum d) He).
Defined.

(** X8 at the first hardened child of [root_xprv], on the curve. *)
Lemma derive_child_bookkeeping_witness :
  exists c,
    derive_child_seed (H := py_hashlib) (E := secp256k1) root_xprv (2 ^ 31)
    = OK c /\
    root c = false /\ private_key c = true /\ index c = 2 ^ 31 /\
    depth c = 1.
Proof.
  assert (Hok : is_err (derive_child_seed (H := py_hashlib) (E := secp256k1)
                          root_xprv (2 ^ 31)) = false)
    by (vm_compute; reflexivity).
  destruct (derive_child_seed (H := py_hashlib) (E := secp256k1)
              root_xprv (2 ^ 31)) as [c|e] eqn:Hc; [|discriminate Hok].
  exists c. split; [reflexivity|].
  destruct (derive_child_bookkeeping (H := py_hashlib) (E := secp256k1)
              root_xprv (2 ^ 31) c Hc)
    as (Hr & Hp & Hi & _ & _ & Hd & _).
  split; [exact Hr|]. split; [exact Hp|]. split; [exact Hi|]. exact Hd.
Defined.

(** X9 at [root_xprv]: the indexes [2^32] and [-1]. *)
Lemma derive_child_index_range_witness :
  is_err (derive_child_seed (H := py_hashlib) (E := secp256k1)
            root_xprv (2 ^ 32)) = true /\
  is_err (derive_child_seed (H := py_hashlib) (E := secp256k1)
            root_xprv (-1)) = true.
Proof.
  split.
  - apply (derive_child_index_range (H := py_hashlib) (E := secp256k1)
             root_xprv (2 ^ 32)). right. lia.
  - apply (derive_child_index_range (H := py_hashlib) (E := secp256k1)
             root_xprv (-1)). left. lia.
Defined.

(** X10 at [root_xprv], whose projection is [root_xpub]. *)
Lemma derive_pubkey_projection_witness :
  derive_pubkey (E := secp256k1) root_xprv = OK root_xpub /\
  get_pubkey_sec (E := secp256k1) (key root_xprv) = OK (key root_xpub) /\
  derive_pubkey (E := secp256k1) root_xpub = Err AssertionError.
Proof.
  pose proof (proj1 test_root_public_key) as Hq.
  destruct (derive_pubkey_projection (E := secp256k1) root_xprv root_xpub Hq)
    as (_ & Hk & _ & He).
  split; [exact Hq|]. split; [exact Hk|exact He].
Defined.

(** X11 at [root_xpub], the projection of [root_xprv]. *)
Lemma hardened_isolation_witness :
  derive_pubkey (E := secp256k1) root_xprv = OK root_xpub /\
  derive_child_seed (H := py_hashlib) (E := secp256k1) root_xpub (2 ^ 31)
  = Err (ValueError "Cannot use hardened index!").
Proof.
  pose proof (proj1 test_root_public_key) as Hq.
  split; [exact Hq|].
  apply (hardened_isolation (H := py_hashlib) (E := secp256k1)
           root_xprv root_xpub (2 ^ 31) Hq). lia.
Defined.

(** X13 at the first path of the test suite, m/0'/0/5/1'. *)
Lemma derive_path_bookkeeping_witness :
  derive_path (H := py_hashlib) (E := secp256k1) root_xprv (nth 0 PATHS [])
  = OK path0_xprv /\
  depth path0_xprv = 0 + 4 /\ index path0_xprv = 1 + 2 ^ 31.
Proof.
  pose proof (proj1 test_derive_private_key_based_on_path) as Hx.
  assert (Hne : nth 0 PATHS [] <> []) by discriminate.
  destruct (derive_path_bookkeeping (H := py_hashlib) (E := secp256k1)
              (nth 0 PATHS []) root_xprv path0_xprv Hx Hne)
    as (_ & _ & Hd & Hi).
  split; [exact Hx|]. split; [exact Hd|exact Hi].
Defined.

(** X14 at that path, from the public root. *)
Lemma derive_path_public_hardened_witness :
  private_key root_xpub = false /\
  is_err (derive_path (H := py_hashlib) (E := secp256k1) root_xpub
            (nth 0 PATHS [])) = true.
Proof.
  split; [reflexivity|].
  apply (derive_path_public_hardened (H := py_hashlib) (E := secp256k1)
           (nth 0 PATHS []) root_xpub 0); [reflexivity| |lia].
  left. reflexivity.
Defined.



(** X17 at the empty seed. *)
Lemma parse_from_seed_root_witness :
  let full_node :=
    hmac_sha512 (Hashlib := py_hashlib)
                (list_byte_of_string "Bitcoin seed") [] in
  parse_from_seed (H := py_hashlib) []
  = OK (mkXkey (firstn 32 full_node) (skipn 32 full_node)
               true true 0 0 None) /\
  full_node = firstn 32 full_node ++ skipn 32 full_node /\
  length (firstn 32 full_node) = 32%nat /\
  length (skipn 32 full_node) = 32%nat /\
  valid_node (mkXkey (firstn 32 full_node) (skipn 32 full_node)
                     true true 0 0 None) = true.
Proof.
  exact (parse_from_seed_root (H := py_hashlib) py_hashlib_hmac_length []).
Defined.

(** X18 at nodes with the key material of [root_xprv] that are not
    roots: a depth of 256, no parent key, an index of [2^32]. *)
Lemma serialize_errors_witness :
  serialize (H := py_hashlib)
    (mkXkey (key root_xprv) root_chaincode false true 256 0 None)
  = Err (ValueError "bytes must be in range(0, 256)") /\
  serialize (H := py_hashlib)
    (mkXkey (key root_xprv) root_chaincode false true 3 0 None)
  = Err TypeError /\
  serialize (H := py_hashlib)
    (mkXkey (key root_xprv) root_chaincode false true 3 (2 ^ 32)
            (Some (key root_xpub)))
  = Err OverflowError.
Proof.
  split; [|split].
  - apply (proj1 (proj2 (serialize_errors (H := py_hashlib)
                           (mkXkey (key root_xprv) root_chaincode false true
                                   256 0 None)) eq_refl)).
    right. apply Z.leb_le. reflexivity.
  - apply (proj1 (proj2 (proj2 (serialize_errors (H := py_hashlib)
                                  (mkXkey (key root_xprv) root_chaincode
                                          false true 3 0 None)) eq_refl)));
      [|reflexivity].
    split; [apply Z.leb_le|apply Z.ltb_lt]; reflexivity.
  - apply (proj1 (proj2 (proj2 (proj2 (serialize_errors (H := py_hashlib)
                                         (mkXkey (key root_xprv)
                                                 root_chaincode false true 3
                                                 (2 ^ 32)
                                                 (Some (key root_xpub))))
                                      eq_refl)))).
    + split; [apply Z.leb_le|apply Z.ltb_lt]; reflexivity.
    + discriminate.
    + right. apply Z.leb_le. reflexivity.
Defined.

(** X19 at [path0_xprv] and the string the test suite publishes for it. *)
Lemma serialize_shape_witness :
  serialize (H := py_hashlib) path0_xprv
  = OK (nth 0 DERIVATION_PATH_XPRV []) /\
  length (nth 0 DERIVATION_PATH_XPRV []) = 111%nat /\
  firstn 4 (nth 0 DERIVATION_PATH_XPRV []) = list_ascii_of_string "xprv".
Proof.
  pose proof (proj1 (proj2 test_derive_private_key_based_on_path)) as Hs.
  split; [exact Hs|].
  apply (serialize_shape (H := py_hashlib) py_hashlib_sha256_length
           py_hashlib_ripemd160_length path0_xprv
           (nth 0 DERIVATION_PATH_XPRV [])); [reflexivity|reflexivity|exact Hs].
Defined.

(** X20 at the first published child key: with the parent key of
    [path0_xprv] it parses to [path0_xprv]; with the key of [root_xpub]
    the fingerprint does not match. *)
Lemma parse_child_with_parent_witness :
  let s := nth 0 DERIVATION_PATH_XPRV [] in
  decode_base58 s = OK (decoded s) /\
  root_marked (wire_payload (decoded s)) = false /\
  parse_from_bip32 (H := py_hashlib) s (Some path0_parent_pubkey)
  = OK path0_xprv /\
  parse_from_bip32 (H := py_hashlib) s (Some (key root_xpub))
  = Err (ValueError "Fingerprint mismatch!").
Proof.
  intros s.
  assert (Hd : decode_base58 s = OK (decoded s)) by (vm_compute; reflexivity).
  assert (Hr : root_marked (wire_payload (decoded s)) = false)
    by (vm_compute; reflexivity).
  assert (Hc : checksum_ok (H := py_hashlib) (decoded s) = true)
    by (vm_compute; reflexivity).
  assert (Hv : known_version (wire_payload (decoded s)) = Some true)
    by (vm_compute; reflexivity).
  split; [exact Hd|]. split; [exact Hr|]. split.
  - destruct (parse_child_with_parent (H := py_hashlib) s (decoded s)
                path0_parent_pubkey true Hd Hc Hv Hr) as (dep & Hdep & ->).
    assert (H4 : wire_depth (wire_payload (decoded s)) = OK 4)
      by (vm_compute; reflexivity).
    assert (dep = 4) as -> by congruence.
    vm_compute. reflexivity.
  - destruct (parse_child_with_parent (H := py_hashlib) s (decoded s)
                (key root_xpub) true Hd Hc Hv Hr) as (dep & _ & ->).
    vm_compute. reflexivity.
Defined.

(** X21 at a payload whose version is one above the xprv one. *)
Lemma parse_unsupported_version_witness :
  let payload := [x04; x88; xad; xe5] ++ repeat x00 74 in
  let s := encode_base58_checksum (H := py_hashlib) payload in
  decode_base58 s = OK (decoded s) /\
  checksum_ok (H := py_hashlib) (decoded s) = true /\
  parse_from_bip32 (H := py_hashlib) s None
  = Err (ValueError "Unsupported BIP32 Key Format").
Proof.
  intros payload s.
  assert (Hd : decode_base58 s = OK (decoded s)) by (vm_compute; reflexivity).
  assert (Hc : checksum_ok (H := py_hashlib) (decoded s) = true)
    by (vm_compute; reflexivity).
  split; [exact Hd|]. split; [exact Hc|].
  apply (parse_unsupported_version (H := py_hashlib) s (decoded s) None Hd Hc);
    apply bytes_eqb_neq; vm_compute; reflexivity.
Defined.

(** X22 at [ROOT_XPRV], which parses to [root_xprv]. *)
Lemma parse_from_bip32_sound_witness :
  parse_from_bip32 (H := py_hashlib) ROOT_XPRV None = OK root_xprv /\
  length (chaincode root_xprv) = 32%nat /\
  (length (key root_xprv) = 32%nat \/ length (key root_xprv) = 33%nat) /\
  0 <= depth root_xprv < 256 /\ 0 <= index root_xprv < 2 ^ 32 /\
  well_formed root_xprv = true.
Proof.
  pose proof (proj2 test_root_private_key) as Hx.
  destruct (parse_from_bip32_sound (H := py_hashlib) ROOT_XPRV None root_xprv
              Hx) as (Hc & Hk & Hd & Hi & _ & Hw & _).
  split; [exact Hx|]. split; [exact Hc|]. split; [exact Hk|].
  split; [exact Hd|]. split; [exact Hi|exact Hw].
Defined.

(** X23 at [ROOT_XPRV]. *)
Lemma serialize_parse_roundtrip_witness :
  parse_from_bip32 (H := py_hashlib) ROOT_XPRV None = OK root_xprv /\
  valid_node root_xprv = true /\
  exists s',
    serialize (H := py_hashlib) root_xprv = OK s' /\
    decode_base58 s' = decode_base58 ROOT_XPRV /\
    parse_from_bip32 (H := py_hashlib) s' None = OK root_xprv.
Proof.
  pose proof (proj2 test_root_private_key) as Hx.
  split; [exact Hx|]. split; [reflexivity|].
  apply (serialize_parse_roundtrip (H := py_hashlib) py_hashlib_sha256_length
           ROOT_XPRV None root_xprv Hx).
  reflexivity.
Defined.

(** X24 at the first path of the test suite, written out. *)
Lemma derivation_path_string_injective_witness :
  derivation_path_string (nth 0 PATHS []) true
  = derivation_path_string [(0, true); (0, false); (5, false); (1, true)] true
  /\ nth 0 PATHS [] = [(0, true); (0, false); (5, false); (1, true)].
Proof.
  assert (Hs : derivation_path_string (nth 0 PATHS []) true
               = derivation_path_string
                   [(0, true); (0, false); (5, false); (1, true)] true)
    by reflexivity.
  split; [exact Hs|].
  exact (proj1 (derivation_path_string_injective _ _ _ _ Hs)).
Defined.

(** X26 at [root_xprv] and the path m/0/5, in the additive group of the
    curve's order: both orders return a node. *)
Lemma derive_pubkey_path_commutes_witness :
  is_err (q <- derive_pubkey (E := additive_ecc) root_xprv ;;
          derive_path (H := py_hashlib) (E := additive_ecc) q
            [(0, false); (5, false)]) = false /\
  (x <- derive_path (H := py_hashlib) (E := additive_ecc) root_xprv
          [(0, false); (5, false)] ;;
   derive_pubkey (E := additive_ecc) x)
  = (q <- derive_pubkey (E := additive_ecc) root_xprv ;;
     derive_path (H := py_hashlib) (E := additive_ecc) q
       [(0, false); (5, false)]).
Proof.
  split; [vm_compute; reflexivity|].
  apply (derive_pubkey_path_commutes (H := py_hashlib) (E := additive_ecc)
           (additive_group_order_fits _ secp256k1_order_range)
           (additive_group_additive _ secp256k1_order_range)
           (additive_group_parse_sec _ secp256k1_order_range)
           root_xprv [(0, false); (5, false)]);
    [reflexivity|reflexivity|].
  constructor; [split; [reflexivity|apply Z.ltb_lt; reflexivity]|].
  constructor; [split; [reflexivity|apply Z.ltb_lt; reflexivity]|].
  constructor.
Defined.

(** X27 at [root_xprv], in the additive group. *)
Lemma derive_pubkey_valid_witness :
  valid_node root_xprv = true /\
  exists q,
    derive_pubkey (E := additive_ecc) root_xprv = OK q /\
    valid_node q = true.
Proof.
  split; [reflexivity|].
  assert (Hok : is_err (derive_pubkey (E := additive_ecc) root_xprv) = false)
    by (vm_compute; reflexivity).
  destruct (derive_pubkey (E := additive_ecc) root_xprv) as [q|e] eqn:Hq;
    [|discriminate Hok].
  exists q. split; [reflexivity|].
  apply (derive_pubkey_valid (E := additive_ecc)
           (additive_group_sec_compressed _) root_xprv q); [reflexivity|].
  exact Hq.
Defined.

